(** * Phonovibrogram pipeline and audio synchronisation of openhsv

    Shallow embedding of [_find_orthogonal_points], [_create_maps],
    [_find_parts], [get_labels] and [compute_pvg] ([openhsv/analysis/pvg.py]), and, from
    [openhsv/analysis/audio.py], of [_rolling_std_numba] and of the frame
    selection and cropping of [sync].

    Modelling choices:
    - floating-point values (float64 geometry, float32 distance maps) are
      idealised as real numbers [R]; numpy's [arctan], [tan], [sqrt] and [pi]
      are the Standard Library's [atan], [tan], [sqrt] and [PI];
    - Python integers are [Z] (or [nat] for shapes and loop indices);
      the label array of [_find_parts] has dtype [np.int8], so a value
      stored into it is reduced modulo 2^8 into [-128, 127] ([wrap8]);
    - a Python exception is [None] in an [option] result;
    - boolean segmentation masks are [bool]; frames are lists of rows. *)

From Stdlib Require Import Reals Lra Lia ZArith List Bool.
Import ListNotations.

Open Scope R_scope.

(** ** numpy helpers *)

(** [np.linspace(start, stop, num)] with [endpoint=True]:
    a negative [num] raises [ValueError]; [num = 0] gives an empty array,
    [num = 1] gives [[start]]; otherwise sample [k] is
    [k * ((stop - start) / (num - 1)) + start] and the last sample is set
    to [stop]. *)
Definition linspace (start stop : R) (num : Z) : option (list R) :=
  if (num <? 0)%Z then None
  else
    match Z.to_nat num with
    | O => Some []
    | S O => Some [start]
    | S m =>
        Some (map (fun k => if Nat.eqb k m then stop
                            else INR k * ((stop - start) / INR m) + start)
                  (seq 0 (S m)))
    end.

(** elementwise binary operation of two equally long 1-D arrays *)
Fixpoint zip_with {A B C : Type} (f : A -> B -> C) (l1 : list A) (l2 : list B)
  : list C :=
  match l1, l2 with
  | a :: t1, b :: t2 => f a b :: zip_with f t1 t2
  | _, _ => []
  end.

(** ** AxisGeometry: [_find_orthogonal_points] *)

Definition _find_orthogonal_points (x_low x_high coef intercept : R) (steps : Z)
  : option (list R * list R * R * list R) :=
  let _alpha := atan coef in
  let coef_orth := tan (_alpha - PI / 2) in
  match linspace x_low x_high steps with
  | None => None
  | Some xs =>
      let ys := map (fun x => coef * x + intercept) xs in
      let intercepts_orth := zip_with (fun y x => y - coef_orth * x) ys xs in
      Some (xs, ys, coef_orth, intercepts_orth)
  end.

(** ** DistanceMapBuilder: [_create_maps]

    [labels[j, y, x] = (y - (c * x + i[j]))] for every intercept [j] and
    every pixel of [im_shape = (H, W)]; the array is indexed
    [map j], then row [y], then column [x]. *)
Definition _create_maps (im_shape : nat * nat) (c : R) (i : list R)
  : list (list (list R)) :=
  let '(H, W) := im_shape in
  map (fun ij =>
         map (fun y => map (fun x => INR y - (c * INR x + ij)) (seq 0 W))
             (seq 0 H))
      i.

(** ** PixelClassifier: [_find_parts] *)

(** numba's [np.argmin] on a 1-D array: the running minimum is replaced
    only by a strictly smaller value, so the first minimal index wins;
    an empty array raises [ValueError]. *)
Fixpoint argmin_from (best_i : nat) (best : R) (k : nat) (l : list R) : nat :=
  match l with
  | [] => best_i
  | v :: t =>
      if Rlt_dec v best then argmin_from k v (S k) t
      else argmin_from best_i best (S k) t
  end.

Definition argmin (l : list R) : option nat :=
  match l with
  | [] => None
  | v :: t => Some (argmin_from 0 v 1 t)
  end.

(** storing a Python integer into an [np.int8] array *)
Definition wrap8 (z : Z) : Z := ((z + 128) mod 256 - 128)%Z.

Definition at2 (m : list (list R)) (i j : nat) : R := nth j (nth i m []) 0.

(** [labels_parallel[:, i, j]] *)
Definition column (labels_parallel : list (list (list R))) (i j : nat) : list R :=
  map (fun m => at2 m i j) labels_parallel.

(** the body of the double loop of [_find_parts] for pixel [(i, j)] *)
Definition pixel_label (labels_parallel : list (list (list R)))
    (labels_LR : list (list R)) (i j : nat) : option Z :=
  let sign := if Rle_dec 0 (at2 labels_LR i j) then 1%Z else (-1)%Z in
  match argmin (map (fun v => sqrt (v ^ 2)) (column labels_parallel i j)) with
  | None => None
  | Some closest_to => Some (wrap8 (sign * (Z.of_nat closest_to + 1)))
  end.

(** [np.sqrt(labels_parallel[:, i, j] ** 2)] *)
Definition keys (lp : list (list (list R))) (i j : nat) : list R :=
  map (fun v => sqrt (v ^ 2)) (column lp i j).

Fixpoint all_some {A : Type} (l : list (option A)) : option (list A) :=
  match l with
  | [] => Some []
  | None :: _ => None
  | Some a :: t =>
      match all_some t with
      | None => None
      | Some t' => Some (a :: t')
      end
  end.

Definition _find_parts (im_shape : nat * nat)
    (labels_parallel : list (list (list R))) (labels_LR : list (list R))
  : option (list (list Z)) :=
  let '(H, W) := im_shape in
  all_some (map (fun i =>
                   all_some (map (fun j => pixel_label labels_parallel labels_LR i j)
                                 (seq 0 W)))
                (seq 0 H)).

(** ** [get_labels] *)

Definition get_labels (x_low x_high coef intercept : R) (image_shape : nat * nat)
    (steps : Z) : option (list (list Z)) :=
  match _find_orthogonal_points x_low x_high coef intercept steps with
  | None => None
  | Some (xs, ys, coef_orth, intercepts_orth) =>
      let labels_parallel := _create_maps image_shape coef_orth intercepts_orth in
      let labels_LR := nth 0 (_create_maps image_shape coef [intercept]) [] in
      _find_parts image_shape labels_parallel labels_LR
  end.

(** ** PVGAggregator: [compute_pvg] *)

(** [all_steps = np.arange(1, steps*2+1)];
    [all_steps[:steps] = all_steps[:steps][::-1]];
    [all_steps[steps:] = -(all_steps[steps:] - steps)] *)
Definition all_steps (steps : nat) : list Z :=
  let a := map Z.of_nat (seq 1 (steps * 2)) in
  rev (firstn steps a) ++ map (fun v => (- (v - Z.of_nat steps))%Z) (skipn steps a).

(** [labels[frame] == j] *)
Definition eq_map (lab : list (list Z)) (j : Z) : list (list bool) :=
  map (map (fun v => Z.eqb v j)) lab.

(** [f & l[i]] *)
Definition and2 (f g : list (list bool)) : list (list bool) :=
  zip_with (zip_with andb) f g.

(** [.sum()] of a boolean 2-D array *)
Definition sum_row (r : list bool) : Z :=
  fold_right (fun (b : bool) (a : Z) => ((if b then 1 else 0) + a)%Z) 0%Z r.

Definition sum2 (m : list (list bool)) : Z :=
  fold_right (fun (r : list bool) (acc : Z) => (sum_row r + acc)%Z) 0%Z m.

(** a frame of the segmentation stack and the frame of the label stack
    have the same 2-D shape *)
Definition same_shape {A B : Type} (f : list (list A)) (lab : list (list B)) : bool :=
  Nat.eqb (length f) (length lab)
  && forallb (fun p => Nat.eqb (length (fst p)) (length (snd p))) (combine f lab).

(** [compute_pvg(s, labels, steps)]. Errors: a negative [steps] makes
    [np.zeros] raise; [labels[frame]] raises [IndexError] when the label
    stack has fewer frames than [s]; a frame whose shape differs from the
    label frames is rejected (numpy would raise, or broadcast when a
    dimension is 1; those broadcasts are not modelled). *)
Definition compute_pvg (s : list (list (list bool))) (labels : list (list (list Z)))
    (steps : Z) : option (list (list Z)) :=
  if (steps <? 0)%Z then None
  else if negb (Nat.leb (length s) (length labels)) then None
  else if negb (forallb (fun frame => same_shape (nth frame s []) (nth frame labels []))
                        (seq 0 (length s))) then None
  else
    let n := Z.to_nat steps in
    Some (map (fun frame =>
                 let f := nth frame s [] in
                 let l := map (fun j => eq_map (nth frame labels []) j) (all_steps n) in
                 map (fun li => sum2 (and2 f li)) l)
              (seq 0 (length s))).

(** ** Heap model (array ownership)

    numpy arrays live in a heap and are passed by reference. A heap is a
    list of arrays; an address is a position in it. Each array carries its
    shape and its cells in row-major order. Reading out of range gives a
    default cell, and writing out of range does nothing: the programs below
    only access cells in range. *)

Inductive cell := CZ (z : Z) | CB (b : bool).

Record ndarray := { shape : list nat; data : list cell }.

Definition heap := list ndarray.

Definition M (A : Type) := heap -> A * heap.

Definition ret {A : Type} (a : A) : M A := fun h => (a, h).

Definition bind {A B : Type} (m : M A) (k : A -> M B) : M B :=
  fun h => let (a, h') := m h in k a h'.

Notation "x <- m ;; k" := (bind m (fun x => k))
  (at level 61, m at next level, right associativity).
Notation "m ;;; k" := (bind m (fun _ => k))
  (at level 61, right associativity).

Definition prod_nat (l : list nat) : nat := fold_right Nat.mul 1%nat l.

(** [np.zeros(shape, dtype)] *)
Definition np_zeros (shp : list nat) (v : cell) : ndarray :=
  {| shape := shp; data := repeat v (prod_nat shp) |}.

Definition alloc (a : ndarray) : M nat := fun h => (length h, h ++ [a]).

Definition load (p : nat) : M ndarray := fun h => (nth p h (np_zeros [] (CZ 0)), h).

Definition read (p i : nat) : M cell :=
  fun h => (nth i (data (nth p h (np_zeros [] (CZ 0)))) (CZ 0), h).

Fixpoint set_nth {A : Type} (i : nat) (v : A) (l : list A) : list A :=
  match l, i with
  | [], _ => []
  | _ :: t, O => v :: t
  | x :: t, S i' => x :: set_nth i' v t
  end.

Definition write (p i : nat) (v : cell) : M unit :=
  fun h => (tt, match nth_error h p with
                | Some a => set_nth p {| shape := shape a; data := set_nth i v (data a) |} h
                | None => h
                end).

Fixpoint for_ (l : list nat) (body : nat -> M unit) : M unit :=
  match l with
  | [] => ret tt
  | x :: t => body x ;;; for_ t body
  end.

Definition cell_bool (c : cell) : bool := match c with CB b => b | CZ z => negb (Z.eqb z 0) end.
Definition cell_Z (c : cell) : Z := match c with CZ z => z | CB b => if b then 1%Z else 0%Z end.

(** [(f & l[i]).sum()] with [f = s[frame]] at offset [o1] of array [p1] and
    [l[i]] at offset [o2] of array [p2] *)
Fixpoint sum_st (p1 o1 p2 o2 : nat) (qs : list nat) : M Z :=
  match qs with
  | [] => ret 0%Z
  | q :: t =>
      a <- read p1 (o1 + q)%nat ;;
      b <- read p2 (o2 + q)%nat ;;
      r <- sum_st p1 o1 p2 o2 t ;;
      ret ((if cell_bool a && cell_bool b then 1 else 0) + r)%Z
  end.

(** [compute_pvg(s, labels, steps)] on the heap, [s] at address [ps] and
    [labels] at address [pl]; returns the address of [pvg]. The arrays
    [pvg] and [l] are allocated by the call; [all_steps] is a local value. *)
Definition compute_pvg_st (ps pl : nat) (steps : nat) : M nat :=
  sA <- load ps ;;
  lA <- load pl ;;
  let T := hd O (shape sA) in
  let fshape := tl (shape lA) in
  let HW := prod_nat fshape in
  pvg <- alloc (np_zeros [T; (steps * 2)%nat] (CZ 0)) ;;
  l <- alloc (np_zeros ((steps * 2)%nat :: fshape) (CB false)) ;;
  let st := all_steps steps in
  for_ (seq 0 T) (fun frame =>
    for_ (seq 0 ((steps * 2)%nat)) (fun i =>
      for_ (seq 0 HW) (fun q =>
        v <- read pl (frame * HW + q)%nat ;;
        write l (i * HW + q)%nat (CB (Z.eqb (cell_Z v) (nth i st 0%Z))))) ;;;
    for_ (seq 0 ((steps * 2)%nat)) (fun i =>
      c <- sum_st ps (frame * HW)%nat l (i * HW)%nat (seq 0 HW) ;;
      write pvg (frame * (steps * 2) + i)%nat (CZ c))) ;;;
  ret pvg.

(** [get_labels] on the heap: its inputs are Python floats and a tuple
    (immutable values), its result is the [np.int8] array that
    [_find_parts] allocates and fills pixel by pixel. *)
Definition get_labels_st (x_low x_high coef intercept : R) (H W : nat) (steps : Z)
  : M (option nat) :=
  match get_labels x_low x_high coef intercept (H, W) steps with
  | None => ret None
  | Some lab =>
      p <- alloc (np_zeros [H; W] (CZ 0)) ;;
      for_ (seq 0 H) (fun i =>
        for_ (seq 0 W) (fun j =>
          write p (i * W + j)%nat (CZ (nth j (nth i lab []) 0%Z)))) ;;;
      ret (Some p)
  end.

(** a computation that, started on a heap of at least [n0] arrays, leaves
    the first [n0] arrays as they were, keeps at least [n0] arrays, and
    returns a result satisfying [Q] *)
Definition keeps (n0 : nat) {A : Type} (m : M A) (Q : A -> Prop) : Prop :=
  forall h, (n0 <= length h)%nat ->
    (n0 <= length (snd (m h)))%nat /\ Q (fst (m h)) /\
    forall a, (a < n0)%nat -> nth_error (snd (m h)) a = nth_error h a.

(** ** Specification-side notions *)

(** the label of bin [b] as the spec states it *)
Definition label_of_bin (steps b : nat) : Z :=
  if Nat.ltb b steps then Z.of_nat (steps - b) else (- Z.of_nat (b - steps + 1))%Z.

(** number of pixels where the mask is true and the label equals [v] *)
Definition pixel_count (f : list (list bool)) (lab : list (list Z)) (v : Z) : nat :=
  length (filter (fun p => fst p && Z.eqb (snd p) v) (combine (concat f) (concat lab))).

(** number of true pixels of a mask *)
Definition popcount (f : list (list bool)) : nat := length (filter (fun b => b) (concat f)).

(** the samples of [_find_orthogonal_points] as the spec describes them:
    [steps] values of [xs] from [x_low] to [x_high] (both included when
    [steps >= 2]) with a constant step, [ys = coef * xs + intercept],
    the single slope [coef_orth = tan(atan(coef) - pi/2)] and
    [intercepts_orth[k] = ys[k] - coef_orth * xs[k]] *)
Definition samples_ok (x_low x_high coef intercept : R) (steps : Z)
    (xs ys : list R) (co : R) (io : list R) : Prop :=
  length xs = Z.to_nat steps /\
  ((2 <= steps)%Z ->
     nth 0 xs 0 = x_low /\ nth (Z.to_nat steps - 1)%nat xs 0 = x_high /\
     forall k, (S k < Z.to_nat steps)%nat ->
       nth (S k) xs 0 - nth k xs 0 = (x_high - x_low) / INR (Z.to_nat steps - 1)%nat) /\
  (steps = 1%Z -> xs = [x_low]) /\
  co = tan (atan coef - PI / 2) /\
  length ys = length xs /\ length io = length xs /\
  (forall k, (k < length xs)%nat ->
     nth k ys 0 = coef * nth k xs 0 + intercept /\
     nth k io 0 = nth k ys 0 - co * nth k xs 0).

(** every label is nonzero with magnitude in [[1, steps]] *)
Definition labels_in_range (steps : nat) (lab : list (list Z)) : Prop :=
  Forall (Forall (fun v => v <> 0%Z /\ (1 <= Z.abs v <= Z.of_nat steps)%Z)) lab.

(** the range guarantee of [_find_parts] for [steps] orthogonal maps,
    whatever the image and the distance maps *)
Definition classifier_guarantee (steps : nat) : Prop :=
  forall H W lp lr lab, length lp = steps ->
    _find_parts (H, W) lp lr = Some lab -> labels_in_range steps lab.

(** [steps >= 256] maps, the pixel [(0, 0)] lies on map [255] only and on
    the AP axis: its label [256] is stored as [0] *)
Definition zero_at_255 (n : nat) : list (list (list R)) :=
  map (fun k => [[if Nat.eqb k 255 then 0 else 1]]) (seq 0 n).

(** ** Audio synchronisation ([openhsv/analysis/audio.py]) *)

(** [np.mean] and [np.std] (population standard deviation, [ddof = 0]) of
    a non-empty float array *)
Definition np_mean (l : list R) : R := fold_right Rplus 0 l / INR (length l).

Definition np_std (l : list R) : R :=
  sqrt (fold_right Rplus 0 (map (fun v => (v - np_mean l) ^ 2) l) / INR (length l)).

(** [x[a:b]] for [0 <= a <= b] *)
Definition slice_nat {A : Type} (l : list A) (a b : nat) : list A :=
  firstn (b - a) (skipn a l).

(** one iteration of the loop of [_rolling_std_numba]:
    [std[i - window//2] = np.std(x[i-window:i])] *)
Definition rolling_std_step (x : list R) (window : nat) (std : list R) (i : nat) : list R :=
  set_nth (i - window / 2) (np_std (slice_nat x (i - window) i)) std.

(** [_rolling_std_numba(x, window)] on a float array [x] with
    [window >= 1] ([window = 0] takes the std of empty slices, [nan] in
    numpy, which reals do not represent; a negative [window] is not
    modelled) *)
Definition _rolling_std_numba (x : list R) (window : nat) : list R :=
  fold_left (rolling_std_step x window) (seq window (length x - window))
    (repeat 0 (length x)).

(** Python indexing [l[i]] of a list or 1-D array: a negative index
    counts from the end; out of range raises [IndexError] *)
Definition py_getitem {A : Type} (l : list A) (i : Z) : option A :=
  let n := Z.of_nat (length l) in
  let j := if (i <? 0)%Z then (i + n)%Z else i in
  if ((0 <=? j) && (j <? n))%Z then nth_error l (Z.to_nat j) else None.

(** a slice bound after Python's normalisation: a negative bound counts
    from the end, then the bound is clamped to [[0, n]] *)
Definition py_bound (n : Z) (d : Z) (b : option Z) : Z :=
  match b with
  | None => d
  | Some v =>
      if (v <? 0)%Z then Z.max 0 (v + n) else Z.min v n
  end.

(** Python slicing [l[start:stop]] with step 1 *)
Definition py_slice {A : Type} (l : list A) (start stop : option Z) : list A :=
  let n := Z.of_nat (length l) in
  let s := py_bound n 0%Z start in
  let e := py_bound n n stop in
  firstn (Z.to_nat (e - s)) (skipn (Z.to_nat s) l).

(** The selection part of [sync] (lines 96-110 and 129), from the trigger
    position [trigger_end] found by [_findTriggerEnd] and the frame peak
    indices [frame_idx] found by [find_peaks] on the z-scored reference:
    [cropped_audio = audio_signal[:trigger_end]],
    [recorded_frames = frame_idx[-total_frames:]],
    [start_frame_idx = recorded_frames[start_frame-1]],
    [end_frame_idx = recorded_frames[end_frame-1]], and the result
    [cropped_audio[start_frame_idx:end_frame_idx]]; an [IndexError] is
    [None]. The debug plots are left out. *)
Definition sync_select (audio_signal : list R) (trigger_end : Z) (frame_idx : list Z)
    (start_frame end_frame total_frames : Z) : option (list R) :=
  let cropped_audio := py_slice audio_signal None (Some trigger_end) in
  let recorded_frames := py_slice frame_idx (Some (- total_frames)%Z) None in
  match py_getitem recorded_frames (start_frame - 1)%Z with
  | None => None
  | Some start_frame_idx =>
      match py_getitem recorded_frames (end_frame - 1)%Z with
      | None => None
      | Some end_frame_idx =>
          Some (py_slice cropped_audio (Some start_frame_idx) (Some end_frame_idx))
      end
  end.

(** * Proofs *)

(** ** Evaluations on small inputs *)

Example all_steps_3 : all_steps 3 = [3; 2; 1; -1; -2; -3]%Z.
Proof. reflexivity. Qed.

Example compute_pvg_small :
  compute_pvg [[[true; false]; [true; true]]] [[[1; -1]; [2; -1]]]%Z 2%Z
  = Some [[1; 1; 1; 0]]%Z.
Proof. reflexivity. Qed.

Example wrap8_values : wrap8 128 = (-128)%Z /\ wrap8 256 = 0%Z /\ wrap8 (-128) = (-128)%Z
                       /\ wrap8 127 = 127%Z /\ wrap8 (-200) = 56%Z.
Proof. repeat split; reflexivity. Qed.


(** ** Bins of [compute_pvg] *)

Lemma all_steps_split n :
  all_steps n = rev (map Z.of_nat (seq 1 n)) ++ map (fun v => (- (v - Z.of_nat n))%Z) (map Z.of_nat (seq (1 + n) n)).
Proof.
  unfold all_steps. replace (n * 2)%nat with (n + n)%nat by lia.
  rewrite seq_app, map_app.
  rewrite firstn_app, skipn_app, length_map, length_seq, Nat.sub_diag.
  rewrite firstn_all2 by (rewrite length_map, length_seq; lia).
  rewrite skipn_all2 by (rewrite length_map, length_seq; lia).
  simpl. rewrite app_nil_r. reflexivity.
Qed.

Lemma all_steps_length n : length (all_steps n) = (2 * n)%nat.
Proof. rewrite all_steps_split, length_app, length_rev, !length_map, !length_seq. lia. Qed.

Lemma all_steps_nth n b : (b < 2 * n)%nat -> nth b (all_steps n) 0%Z = label_of_bin n b.
Proof.
  intros Hb. rewrite all_steps_split. unfold label_of_bin.
  destruct (Nat.ltb_spec b n) as [Hlt | Hge].
  - rewrite app_nth1 by (rewrite length_rev, length_map, length_seq; lia).
    rewrite rev_nth by (rewrite length_map, length_seq; lia).
    rewrite length_map, length_seq.
    rewrite nth_indep with (d' := Z.of_nat 0) by (rewrite length_map, length_seq; lia).
    rewrite map_nth, seq_nth by lia. f_equal. lia.
  - rewrite app_nth2 by (rewrite length_rev, length_map, length_seq; lia).
    rewrite length_rev, length_map, length_seq.
    rewrite map_map.
    rewrite nth_indep with (d' := (- (Z.of_nat 0 - Z.of_nat n))%Z) by (rewrite length_map, length_seq; lia).
    rewrite map_nth with (f := fun x => (- (Z.of_nat x - Z.of_nat n))%Z), seq_nth by lia.
    lia.
Qed.
Lemma sum_row_count r rl j :
  sum_row (zip_with andb r (map (fun v => Z.eqb v j) rl))
  = Z.of_nat (length (filter (fun p => fst p && Z.eqb (snd p) j) (combine r rl))).
Proof.
  unfold sum_row.
  revert rl; induction r as [|b r IH]; intros [|v rl]; try reflexivity.
  cbn [zip_with map combine fold_right]. rewrite IH. cbn [filter fst snd].
  destruct b, (Z.eqb v j); cbn [andb length]; lia.
Qed.

Lemma combine_app {A B : Type} (a1 a2 : list A) (b1 b2 : list B) :
  length a1 = length b1 -> combine (a1 ++ a2) (b1 ++ b2) = combine a1 b1 ++ combine a2 b2.
Proof.
  revert b1; induction a1 as [|x a1 IH]; intros [|y b1] Hl; simpl in *; try discriminate; auto.
  rewrite IH by lia. reflexivity.
Qed.

Lemma sum2_count f lab j :
  same_shape f lab = true -> sum2 (and2 f (eq_map lab j)) = Z.of_nat (pixel_count f lab j).
Proof.
  unfold pixel_count, same_shape.
  revert lab; induction f as [|r f IH]; intros [|rl lab] Hs; simpl in *; try reflexivity;
    try discriminate.
  apply andb_prop in Hs as [Hlen Hs]. simpl in Hs. apply andb_prop in Hs as [Hr Hs].
  apply Nat.eqb_eq in Hr.
  rewrite combine_app by exact Hr. rewrite filter_app, length_app.
  unfold sum2 in IH. rewrite IH by (rewrite Hs, andb_true_r; exact Hlen).
  fold (sum_row (zip_with andb r (map (fun v => Z.eqb v j) rl))).
  rewrite sum_row_count. lia.
Qed.
Lemma compute_pvg_Some s labels steps pvg :
  compute_pvg s labels steps = Some pvg ->
  (0 <= steps)%Z /\ (length s <= length labels)%nat
  /\ (forall t, (t < length s)%nat -> same_shape (nth t s []) (nth t labels []) = true)
  /\ pvg = map (fun frame =>
                 map (fun li => sum2 (and2 (nth frame s []) li))
                     (map (fun j => eq_map (nth frame labels []) j) (all_steps (Z.to_nat steps))))
              (seq 0 (length s)).
Proof.
  unfold compute_pvg.
  destruct (Z.ltb_spec steps 0); [discriminate|].
  destruct (Nat.leb_spec (length s) (length labels)); [|discriminate].
  destruct (forallb _ _) eqn:Hall; [|discriminate].
  intros [= <-]. repeat split; try lia; try reflexivity.
  intros t Ht. rewrite forallb_forall in Hall. apply Hall, in_seq. lia.
Qed.

Lemma compute_pvg_defined s labels steps :
  (0 <= steps)%Z -> (length s <= length labels)%nat ->
  (forall t, (t < length s)%nat -> same_shape (nth t s []) (nth t labels []) = true) ->
  compute_pvg s labels steps <> None.
Proof.
  intros H1 H2 H3. unfold compute_pvg.
  destruct (Z.ltb_spec steps 0); [lia|].
  destruct (Nat.leb_spec (length s) (length labels)); [|lia].
  replace (forallb _ _) with true; [discriminate|].
  symmetry. apply forallb_forall. intros t Ht. apply in_seq in Ht. apply H3. lia.
Qed.

(** C4: [compute_pvg] returns a [T x 2*steps] matrix whose entry
    [(t, b)] is the number of pixels where the mask of frame [t] is true
    and the label of frame [t] equals the label of bin [b]: bins
    [0..steps-1] are labels [steps, ..., 1] and bins [steps..2*steps-1]
    are labels [-1, ..., -steps]. *)
Theorem compute_pvg_bin_counts s labels steps pvg :
  compute_pvg s labels steps = Some pvg ->
  length pvg = length s /\
  forall t, (t < length s)%nat ->
    length (nth t pvg []) = (2 * Z.to_nat steps)%nat /\
    forall b, (b < 2 * Z.to_nat steps)%nat ->
      nth b (nth t pvg []) 0%Z
      = Z.of_nat (pixel_count (nth t s []) (nth t labels []) (label_of_bin (Z.to_nat steps) b)).
Proof.
  intros Hc. apply compute_pvg_Some in Hc as (_ & _ & Hshape & ->).
  rewrite length_map, length_seq. split; [reflexivity|].
  intros t Ht.
  rewrite nth_indep with (d' := map (fun li => sum2 (and2 (nth 0 s []) li))
                     (map (fun j => eq_map (nth 0 labels []) j) (all_steps (Z.to_nat steps))))
    by (rewrite length_map, length_seq; lia).
  rewrite map_nth with (f := fun frame => map (fun li => sum2 (and2 (nth frame s []) li))
                     (map (fun j => eq_map (nth frame labels []) j) (all_steps (Z.to_nat steps)))).
  rewrite seq_nth by lia. simpl Nat.add.
  rewrite map_map, length_map, all_steps_length. split; [reflexivity|].
  intros b Hb.
  rewrite nth_indep with (d' := sum2 (and2 (nth t s []) (eq_map (nth t labels []) 0%Z)))
    by (rewrite length_map, all_steps_length; lia).
  rewrite map_nth with (f := fun j => sum2 (and2 (nth t s []) (eq_map (nth t labels []) j))).
  rewrite all_steps_nth by exact Hb.
  apply sum2_count, Hshape, Ht.
Qed.

(** C8: on well-shaped inputs, a frame whose mask is entirely false does
    not make [compute_pvg] fail and gives an all-zero row. *)
Theorem compute_pvg_empty_frame s labels steps t :
  (0 <= steps)%Z -> (length s <= length labels)%nat ->
  (forall t', (t' < length s)%nat -> same_shape (nth t' s []) (nth t' labels []) = true) ->
  (t < length s)%nat ->
  Forall (Forall (fun b => b = false)) (nth t s []) ->
  exists pvg, compute_pvg s labels steps = Some pvg
              /\ nth t pvg [] = repeat 0%Z (2 * Z.to_nat steps).
Proof.
  intros H1 H2 H3 Ht Hempty.
  destruct (compute_pvg s labels steps) as [pvg|] eqn:Hc;
    [|exfalso; exact (compute_pvg_defined s labels steps H1 H2 H3 Hc)].
  exists pvg. split; [reflexivity|].
  destruct (compute_pvg_bin_counts s labels steps pvg Hc) as [_ Hrow].
  destruct (Hrow t Ht) as [Hlen Hb].
  apply nth_ext with (d := 0%Z) (d' := 0%Z).
  - rewrite Hlen, repeat_length. reflexivity.
  - intros b Hlt. rewrite Hlen in Hlt. rewrite Hb by exact Hlt.
    rewrite nth_repeat_lt by exact Hlt.
    unfold pixel_count.
    replace (filter _ _) with (@nil (bool * Z)); [reflexivity|].
    generalize (concat (nth t labels [])).
    assert (Hc' : Forall (fun b => b = false) (concat (nth t s []))).
    { apply Forall_concat. exact Hempty. }
    induction Hc' as [|x l Hx Hl IH]; intros [|v ls]; simpl; try reflexivity.
    subst x. simpl. apply IH.
Qed.

(** ** Classifier *)

Lemma argmin_from_spec t : forall p bi b,
  (bi < length p)%nat -> nth bi p 0 = b ->
  (forall k', (k' < length p)%nat -> b <= nth k' p 0) ->
  (forall k', (k' < bi)%nat -> b < nth k' p 0) ->
  let r := argmin_from bi b (length p) t in
  (r < length (p ++ t))%nat /\
  (forall k', (k' < length (p ++ t))%nat -> nth r (p ++ t) 0 <= nth k' (p ++ t) 0) /\
  (forall k', (k' < r)%nat -> nth r (p ++ t) 0 < nth k' (p ++ t) 0).
Proof.
  induction t as [|v t IH]; intros p bi b Hbi Hnth Hle Hlt; simpl.
  - rewrite app_nil_r. subst b. repeat split; auto.
  - replace (p ++ v :: t) with ((p ++ [v]) ++ t) by (rewrite <- app_assoc; reflexivity).
    assert (Hlen : length (p ++ [v]) = S (length p)) by (rewrite length_app; simpl; lia).
    destruct (Rlt_dec v b) as [Hvb | Hvb].
    + rewrite <- Hlen. apply IH.
      * lia.
      * rewrite app_nth2 by lia. rewrite Nat.sub_diag. reflexivity.
      * intros k' Hk'. rewrite Hlen in Hk'.
        destruct (Nat.eq_dec k' (length p)) as [->|Hne].
        -- rewrite app_nth2 by lia. rewrite Nat.sub_diag. simpl. lra.
        -- rewrite app_nth1 by lia. specialize (Hle k' ltac:(lia)). lra.
      * intros k' Hk'. rewrite app_nth1 by lia. specialize (Hle k' Hk'). lra.
    + rewrite <- Hlen. apply IH.
      * lia.
      * rewrite app_nth1 by lia. exact Hnth.
      * intros k' Hk'. rewrite Hlen in Hk'.
        destruct (Nat.eq_dec k' (length p)) as [->|Hne].
        -- rewrite app_nth2 by lia. rewrite Nat.sub_diag. simpl. lra.
        -- rewrite app_nth1 by lia. apply Hle. lia.
      * intros k' Hk'. rewrite app_nth1 by lia. apply Hlt, Hk'.
Qed.

Lemma argmin_spec l r :
  argmin l = Some r ->
  (r < length l)%nat /\
  (forall k', (k' < length l)%nat -> nth r l 0 <= nth k' l 0) /\
  (forall k', (k' < r)%nat -> nth r l 0 < nth k' l 0).
Proof.
  destruct l as [|v t]; simpl; [discriminate|]. intros [= <-].
  apply (argmin_from_spec t [v] 0 v); simpl; try reflexivity; try lia.
  - intros k' Hk'. destruct k'; [lra | lia].
Qed.

Lemma argmin_None l : argmin l = None <-> l = [].
Proof. destruct l; simpl; split; congruence. Qed.

Lemma argmin_unique_zero l r m :
  argmin l = Some r -> (m < length l)%nat -> nth m l 0 = 0 ->
  (forall k, (k < length l)%nat -> k <> m -> 0 < nth k l 0) -> r = m.
Proof.
  intros Ha Hm Hz Hpos. apply argmin_spec in Ha as (Hr & Hmin & _).
  destruct (Nat.eq_dec r m) as [|Hne]; [assumption|].
  specialize (Hmin m Hm). specialize (Hpos r Hr Hne). lra.
Qed.

Lemma sqrt_sq_abs v : sqrt (v ^ 2) = Rabs v.
Proof. rewrite <- Rsqr_pow2. apply sqrt_Rsqr_abs. Qed.

Lemma wrap8_bound x : (1 <= Z.abs x <= 255)%Z ->
  wrap8 x <> 0%Z /\ (1 <= Z.abs (wrap8 x) <= Z.abs x)%Z.
Proof. unfold wrap8. intros H. Z.div_mod_to_equations. lia. Qed.

Lemma all_some_Some {A : Type} (l : list (option A)) l' :
  all_some l = Some l' ->
  length l' = length l /\ forall n d, (n < length l)%nat -> nth n l None = Some (nth n l' d).
Proof.
  revert l'; induction l as [|[a|] t IH]; intros l' Hs; simpl in Hs.
  - injection Hs as <-. split; [reflexivity|]. intros n d Hn. simpl in Hn. lia.
  - destruct (all_some t) as [t'|] eqn:Ht; [|discriminate].
    injection Hs as <-. destruct (IH t' eq_refl) as [Hlen Hn].
    simpl. split; [lia|]. intros [|n] d Hlt; simpl; [reflexivity|]. apply Hn. simpl in Hlt. lia.
  - discriminate.
Qed.

Lemma all_some_None {A : Type} (l : list (option A)) : all_some l = None <-> In None l.
Proof.
  induction l as [|[a|] t IH]; simpl.
  - split; [discriminate | contradiction].
  - destruct (all_some t); split; intros H.
    + discriminate.
    + destruct H as [H|H]; [discriminate|]. apply IH in H. discriminate.
    + right. apply IH. reflexivity.
    + reflexivity.
  - split; auto.
Qed.

Lemma nth_keys lp i j k : (k < length lp)%nat ->
  nth k (keys lp i j) 0 = Rabs (at2 (nth k lp []) i j).
Proof.
  intros Hk. unfold keys, column. rewrite map_map.
  rewrite nth_indep with (d' := sqrt (at2 [] i j ^ 2)) by (rewrite length_map; exact Hk).
  rewrite map_nth with (f := fun m => sqrt (at2 m i j ^ 2)). apply sqrt_sq_abs.
Qed.

Lemma length_keys lp i j : length (keys lp i j) = length lp.
Proof. unfold keys, column. rewrite !length_map. reflexivity. Qed.

Lemma pixel_label_None lp lr i j : pixel_label lp lr i j = None <-> lp = [].
Proof.
  unfold pixel_label. fold (keys lp i j).
  destruct (argmin (keys lp i j)) eqn:Ha; split; intros H; try discriminate.
  - subst lp. discriminate.
  - apply argmin_None in Ha. unfold keys, column in Ha.
    destruct lp; [reflexivity | discriminate].
  - reflexivity.
Qed.

(** the label of one pixel: the first index [closest] minimising
    [|labels_parallel[k, i, j]|], the sign of [labels_LR[i, j]], and the
    int8 store of [sign * (closest + 1)] *)
Lemma pixel_label_spec lp lr i j v :
  pixel_label lp lr i j = Some v ->
  exists closest,
    (closest < length lp)%nat /\
    (forall k, (k < length lp)%nat ->
       Rabs (at2 (nth closest lp []) i j) <= Rabs (at2 (nth k lp []) i j)) /\
    (forall k, (k < closest)%nat ->
       Rabs (at2 (nth closest lp []) i j) < Rabs (at2 (nth k lp []) i j)) /\
    (0 <= at2 lr i j -> v = wrap8 (Z.of_nat closest + 1)) /\
    (at2 lr i j < 0 -> v = wrap8 (- (Z.of_nat closest + 1))).
Proof.
  unfold pixel_label. fold (keys lp i j).
  destruct (argmin (keys lp i j)) as [c|] eqn:Ha; [|discriminate].
  intros [= <-]. apply argmin_spec in Ha as (Hc & Hmin & Hfirst).
  rewrite length_keys in Hc, Hmin.
  exists c. split; [exact Hc|]. split; [|split; [|split]].
  - intros k Hk. rewrite <- !nth_keys by lia. apply Hmin, Hk.
  - intros k Hk. rewrite <- !nth_keys by lia. apply Hfirst, Hk.
  - intros H0. destruct (Rle_dec 0 (at2 lr i j)); [|contradiction]. f_equal; lia.
  - intros H0. destruct (Rle_dec 0 (at2 lr i j)); [lra|]. f_equal; lia.
Qed.

Lemma pixel_label_bound lp lr i j v :
  pixel_label lp lr i j = Some v -> (length lp <= 255)%nat ->
  v <> 0%Z /\ (1 <= Z.abs v <= Z.of_nat (length lp))%Z.
Proof.
  intros Hp Hlen. unfold pixel_label in Hp. fold (keys lp i j) in Hp.
  destruct (argmin (keys lp i j)) as [c|] eqn:Ha; [|discriminate].
  injection Hp as <-. apply argmin_spec in Ha as (Hc & _). rewrite length_keys in Hc.
  destruct (Rle_dec 0 (at2 lr i j));
    match goal with |- context [wrap8 ?x] => pose proof (wrap8_bound x) end; lia.
Qed.

Lemma find_parts_Some H W lp lr lab :
  _find_parts (H, W) lp lr = Some lab ->
  length lab = H /\
  forall i, (i < H)%nat -> length (nth i lab []) = W /\
    forall j, (j < W)%nat -> pixel_label lp lr i j = Some (nth j (nth i lab []) 0%Z).
Proof.
  unfold _find_parts. intros Hs. apply all_some_Some in Hs as [Hlen Hrows].
  rewrite length_map, length_seq in Hlen, Hrows. split; [exact Hlen|].
  intros i Hi. specialize (Hrows i [] Hi).
  rewrite nth_indep with (d' := all_some (map (fun j => pixel_label lp lr 0 j) (seq 0 W)))
    in Hrows by (rewrite length_map, length_seq; lia).
  rewrite map_nth with (f := fun i => all_some (map (fun j => pixel_label lp lr i j) (seq 0 W)))
    in Hrows.
  rewrite seq_nth in Hrows by lia. simpl in Hrows.
  apply all_some_Some in Hrows as [Hlen' Hcols].
  rewrite length_map, length_seq in Hlen', Hcols. split; [exact Hlen'|].
  intros j Hj. specialize (Hcols j 0%Z Hj).
  rewrite nth_indep with (d' := pixel_label lp lr i 0) in Hcols
    by (rewrite length_map, length_seq; lia).
  rewrite map_nth with (f := fun j => pixel_label lp lr i j), seq_nth in Hcols by lia.
  exact Hcols.
Qed.

Lemma find_parts_None H W lp lr :
  _find_parts (H, W) lp lr = None <-> (lp = [] /\ (0 < H)%nat /\ (0 < W)%nat).
Proof.
  unfold _find_parts. rewrite all_some_None, in_map_iff. split.
  - intros (i & Hi & Hin). apply all_some_None, in_map_iff in Hi as (j & Hj & Hjin).
    apply pixel_label_None in Hj. apply in_seq in Hin, Hjin. repeat split; auto; lia.
  - intros (-> & HH & HW). exists 0%nat. split; [|apply in_seq; lia].
    apply all_some_None, in_map_iff. exists 0%nat.
    split; [apply pixel_label_None; reflexivity | apply in_seq; lia].
Qed.

Lemma nth_map_lt {A B : Type} (f : A -> B) (l : list A) k d da :
  (k < length l)%nat -> nth k (map f l) d = f (nth k l da).
Proof.
  intros Hk. rewrite nth_indep with (d' := f da) by (rewrite length_map; exact Hk).
  apply map_nth.
Qed.

Lemma nth_map_seq {A : Type} (f : nat -> A) n k d :
  (k < n)%nat -> nth k (map f (seq 0 n)) d = f k.
Proof.
  intros Hk. rewrite (nth_map_lt f _ _ _ 0%nat) by (rewrite length_seq; exact Hk).
  rewrite seq_nth by exact Hk. reflexivity.
Qed.

Lemma zip_with_map_l {A B C : Type} (g : A -> B -> C) (f : B -> A) (l : list B) :
  zip_with g (map f l) l = map (fun x => g (f x) x) l.
Proof. induction l as [|x l IH]; simpl; [reflexivity | rewrite IH; reflexivity]. Qed.

Lemma coef_orth_1 : tan (atan 1 - PI / 2) = -1.
Proof.
  rewrite atan_1. replace (PI / 4 - PI / 2) with (- (PI / 4)) by field.
  rewrite tan_neg, tan_PI4. reflexivity.
Qed.

(** [get_labels(-m, 0, 1, 0, (1, 1), m + 1)]: the only pixel lies on the
    last orthogonal line ([closest = m]) and on the AP axis ([sign = 1]) *)
Lemma get_labels_diag m : (1 <= m)%nat ->
  get_labels (- INR m) 0 1 0 (1%nat, 1%nat) (Z.of_nat (S m))
  = Some [[wrap8 (Z.of_nat (S m))]].
Proof.
  intros Hm.
  unfold get_labels, _find_orthogonal_points. rewrite coef_orth_1.
  unfold linspace.
  replace (Z.of_nat (S m) <? 0)%Z with false by (symmetry; apply Z.ltb_ge; lia).
  rewrite Nat2Z.id. destruct m as [|m']; [lia|].
  set (m := S m').
  set (xs := map (fun k => if Nat.eqb k m then 0
                           else INR k * ((0 - - INR m) / INR m) + - INR m) (seq 0 (S m))).
  change (match S m with
          | 0%nat => Some []
          | 1%nat => Some [- INR m]
          | S (S _) => Some xs end) with (Some xs).
  cbv iota beta.
  rewrite zip_with_map_l.
  set (io := map (fun x => 1 * x + 0 - -1 * x) xs).
  assert (Hlr : at2 (nth 0 (_create_maps (1%nat, 1%nat) 1 [0]) []) 0 0 = 0).
  { simpl. unfold at2. simpl. ring. }
  assert (Hio : forall k, (k < S m)%nat ->
            nth k io 0 = 2 * (if Nat.eqb k m then 0 else INR k - INR m)).
  { intros k Hk. unfold io, xs. rewrite map_map.
    rewrite nth_map_seq by exact Hk.
    destruct (Nat.eqb k m); [ring|].
    assert (INR m <> 0) by (apply not_0_INR; unfold m; lia).
    field. exact H. }
  assert (Hlen : length io = S m) by (unfold io, xs; rewrite !length_map, length_seq; reflexivity).
  assert (Hat : forall k, (k < S m)%nat ->
            at2 (nth k (_create_maps (1%nat, 1%nat) (-1) io) []) 0 0 = - nth k io 0).
  { intros k Hk. unfold _create_maps.
    rewrite (nth_map_lt _ _ _ _ 0) by lia.
    unfold at2. simpl. ring. }
  assert (Hpx : pixel_label (_create_maps (1%nat, 1%nat) (-1) io)
                  (nth 0 (_create_maps (1%nat, 1%nat) 1 [0]) []) 0 0
                = Some (wrap8 (Z.of_nat (S m)))).
  2: { unfold _find_parts. cbn [seq map]. rewrite Hpx. reflexivity. }
  unfold pixel_label. fold (keys (_create_maps (1%nat, 1%nat) (-1) io) 0 0).
  assert (Hlp : length (_create_maps (1%nat, 1%nat) (-1) io) = S m)
    by (unfold _create_maps; rewrite length_map; exact Hlen).
  destruct (argmin (keys (_create_maps (1%nat, 1%nat) (-1) io) 0 0)) as [c|] eqn:Ha.
  - replace c with m.
    + rewrite Hlr. destruct (Rle_dec 0 0) as [_|Hn]; [|lra].
      simpl. do 3 f_equal. lia.
    + symmetry. apply (argmin_unique_zero _ c m Ha).
      * rewrite length_keys, Hlp. lia.
      * rewrite nth_keys by (rewrite Hlp; lia). rewrite Hat, Hio by lia.
        rewrite Nat.eqb_refl. rewrite Rmult_0_r, Ropp_0. apply Rabs_R0.
      * intros k Hk Hne. rewrite length_keys, Hlp in Hk.
        rewrite nth_keys by (rewrite Hlp; lia). rewrite Hat, Hio by lia.
        assert (INR k < INR m) by (apply lt_INR; lia).
        apply Nat.eqb_neq in Hne. rewrite Hne.
        apply Rabs_pos_lt. lra.
  - apply argmin_None in Ha. unfold keys, column in Ha.
    apply (f_equal (@length R)) in Ha. rewrite !length_map, Hlp in Ha. discriminate.
Qed.

Lemma linspace_None a b n : linspace a b n = None <-> (n < 0)%Z.
Proof.
  unfold linspace. destruct (Z.ltb_spec n 0); split; intros H0; try lia; try reflexivity.
  destruct (Z.to_nat n) as [|[|m]]; discriminate.
Qed.

Lemma linspace_length a b n xs : linspace a b n = Some xs -> length xs = Z.to_nat n.
Proof.
  unfold linspace. destruct (n <? 0)%Z; [discriminate|].
  destruct (Z.to_nat n) as [|[|m]]; intros [= <-]; try reflexivity.
  simpl. rewrite length_map, length_seq. reflexivity.
Qed.

Lemma zip_with_length {A B C : Type} (g : A -> B -> C) l1 l2 :
  length (zip_with g l1 l2) = Nat.min (length l1) (length l2).
Proof.
  revert l2; induction l1 as [|a l1 IH]; intros [|b l2]; simpl; try reflexivity.
  rewrite IH. reflexivity.
Qed.

Lemma create_maps_length H W c i : length (_create_maps (H, W) c i) = length i.
Proof. unfold _create_maps. apply length_map. Qed.

Lemma find_orthogonal_points_length x_low x_high coef intercept steps xs ys co io :
  _find_orthogonal_points x_low x_high coef intercept steps = Some (xs, ys, co, io) ->
  length io = Z.to_nat steps.
Proof.
  unfold _find_orthogonal_points.
  destruct (linspace x_low x_high steps) as [xs'|] eqn:Hl; [|discriminate].
  intros [= <- <- <- <-]. rewrite zip_with_length, length_map.
  rewrite (linspace_length _ _ _ _ Hl). apply Nat.min_id.
Qed.

Lemma get_labels_None x_low x_high coef intercept H W steps :
  get_labels x_low x_high coef intercept (H, W) steps = None
  <-> ((steps < 0)%Z \/ (steps = 0%Z /\ (0 < H)%nat /\ (0 < W)%nat)).
Proof.
  unfold get_labels.
  destruct (_find_orthogonal_points x_low x_high coef intercept steps)
    as [[[[xs ys] co] io]|] eqn:Hf.
  - pose proof (find_orthogonal_points_length _ _ _ _ _ _ _ _ _ Hf) as Hlen.
    assert (Hnn : (0 <= steps)%Z).
    { unfold _find_orthogonal_points in Hf.
      destruct (linspace x_low x_high steps) eqn:Hl; [|discriminate].
      destruct (Z.ltb_spec steps 0) as [Hlt|]; [|lia].
      apply (linspace_None x_low x_high) in Hlt. congruence. }
    rewrite find_parts_None. split.
    + intros (Hlp & HH & HW). right. split; [|lia].
      apply (f_equal (@length (list (list R)))) in Hlp.
      rewrite create_maps_length, Hlen in Hlp. simpl in Hlp. lia.
    + intros [Hlt | (Hz & HH & HW)]; [lia|]. split; [|lia].
      subst steps. simpl in Hlen. destruct io; [reflexivity | discriminate].
  - split; intros _; [|reflexivity]. left.
    unfold _find_orthogonal_points in Hf.
    destruct (linspace x_low x_high steps) eqn:Hl; [discriminate|].
    apply linspace_None in Hl. exact Hl.
Qed.

Lemma linspace_nth a b m xs k : (1 <= m)%nat ->
  linspace a b (Z.of_nat (S m)) = Some xs -> (k <= m)%nat ->
  nth k xs 0 = INR k * ((b - a) / INR m) + a.
Proof.
  intros Hm Hl Hk. unfold linspace in Hl.
  replace (Z.of_nat (S m) <? 0)%Z with false in Hl by (symmetry; apply Z.ltb_ge; lia).
  rewrite Nat2Z.id in Hl. destruct m as [|m']; [lia|].
  assert (Hxs : xs = map (fun k => if Nat.eqb k (S m') then b
                                   else INR k * ((b - a) / INR (S m')) + a)
                         (seq 0 (S (S m')))) by congruence.
  subst xs. rewrite nth_map_seq by lia.
  destruct (Nat.eqb_spec k (S m')) as [->|]; [|reflexivity].
  assert (INR (S m') <> 0) by (apply not_0_INR; lia). field. exact H.
Qed.

Lemma find_orthogonal_points_shape x_low x_high coef intercept steps xs ys co io :
  _find_orthogonal_points x_low x_high coef intercept steps = Some (xs, ys, co, io) ->
  linspace x_low x_high steps = Some xs /\
  co = tan (atan coef - PI / 2) /\
  length ys = length xs /\ length io = length xs /\
  (forall k, (k < length xs)%nat ->
     nth k ys 0 = coef * nth k xs 0 + intercept /\
     nth k io 0 = nth k ys 0 - co * nth k xs 0).
Proof.
  unfold _find_orthogonal_points.
  destruct (linspace x_low x_high steps) as [xs'|] eqn:Hl; [|discriminate].
  intros [= <- <- <- <-]. rewrite zip_with_map_l, !length_map.
  repeat split; try reflexivity.
  - rewrite (nth_map_lt _ _ _ _ 0) by exact H. reflexivity.
  - rewrite !(nth_map_lt _ _ _ _ 0) by exact H. reflexivity.
Qed.

(** ** Heap frames, samples, distance maps, labels *)

Example compute_pvg_st_small :
  let h := [ {| shape := [1; 2; 2]%nat; data := [CB true; CB false; CB true; CB true] |};
             {| shape := [1; 2; 2]%nat; data := [CZ 1; CZ (-1); CZ 2; CZ (-1)] |} ] in
  let (r, h') := compute_pvg_st 0 1 2 h in
  r = 2%nat /\ data (nth r h' (np_zeros [] (CZ 0))) = [CZ 1; CZ 1; CZ 1; CZ 0]
  /\ firstn 2 h' = h.
Proof. vm_compute. repeat split; reflexivity. Qed.

Lemma keeps_ret n0 {A : Type} (a : A) (Q : A -> Prop) : Q a -> keeps n0 (ret a) Q.
Proof. intros HQ h Hh. simpl. auto. Qed.

Lemma keeps_bind n0 {A B : Type} (m : M A) (k : A -> M B) (Q : A -> Prop) (P : B -> Prop) :
  keeps n0 m Q -> (forall a, Q a -> keeps n0 (k a) P) -> keeps n0 (bind m k) P.
Proof.
  intros Hm Hk h Hh. unfold bind.
  destruct (Hm h Hh) as (Hl & HQ & Hfr).
  destruct (m h) as [a h'] eqn:E. simpl in *.
  destruct (Hk a HQ h' Hl) as (Hl' & HP & Hfr').
  repeat split; auto. intros a' Ha'. rewrite Hfr' by exact Ha'. apply Hfr, Ha'.
Qed.

Lemma keeps_weaken n0 {A : Type} (m : M A) (Q Q' : A -> Prop) :
  keeps n0 m Q -> (forall a, Q a -> Q' a) -> keeps n0 m Q'.
Proof. intros Hm HQ h Hh. destruct (Hm h Hh) as (? & ? & ?). auto. Qed.

Lemma keeps_alloc n0 (a : ndarray) : keeps n0 (alloc a) (fun p => (n0 <= p)%nat).
Proof.
  intros h Hh. simpl. rewrite length_app. simpl. split; [lia|]. split; [lia|].
  intros a' Ha'. rewrite nth_error_app1 by lia. reflexivity.
Qed.

Lemma keeps_load n0 p : keeps n0 (load p) (fun _ => True).
Proof. intros h Hh. simpl. auto. Qed.

Lemma keeps_read n0 p i : keeps n0 (read p i) (fun _ => True).
Proof. intros h Hh. simpl. auto. Qed.

Lemma set_nth_length {A : Type} i (v : A) l : length (set_nth i v l) = length l.
Proof. revert i; induction l as [|x l IH]; intros [|i]; simpl; auto. Qed.

Lemma set_nth_other {A : Type} i (v : A) l a :
  a <> i -> nth_error (set_nth i v l) a = nth_error l a.
Proof.
  revert i a; induction l as [|x l IH]; intros [|i] [|a] Hne; simpl; auto; try lia;
    apply IH; lia.
Qed.

Lemma keeps_write n0 p i v : (n0 <= p)%nat -> keeps n0 (write p i v) (fun _ => True).
Proof.
  intros Hp h Hh. simpl. destruct (nth_error h p).
  - rewrite set_nth_length. repeat split; auto.
    intros a Ha. apply set_nth_other. lia.
  - auto.
Qed.

Lemma keeps_for n0 l body :
  (forall x, keeps n0 (body x) (fun _ => True)) -> keeps n0 (for_ l body) (fun _ => True).
Proof.
  intros Hb. induction l as [|x l IH]; simpl.
  - apply keeps_ret. exact I.
  - apply keeps_bind with (Q := fun _ => True); auto.
Qed.

Lemma keeps_sum_st n0 p1 o1 p2 o2 qs : keeps n0 (sum_st p1 o1 p2 o2 qs) (fun _ => True).
Proof.
  induction qs as [|q qs IH]; simpl.
  - apply keeps_ret. exact I.
  - apply keeps_bind with (Q := fun _ => True); [apply keeps_read|intros a _].
    apply keeps_bind with (Q := fun _ => True); [apply keeps_read|intros b _].
    apply keeps_bind with (Q := fun _ => True); [exact IH|intros r _].
    apply keeps_ret. exact I.
Qed.

Lemma compute_pvg_st_keeps n0 ps pl steps :
  keeps n0 (compute_pvg_st ps pl steps) (fun r => (n0 <= r)%nat).
Proof.
  unfold compute_pvg_st.
  apply keeps_bind with (Q := fun _ => True); [apply keeps_load|intros sA _].
  apply keeps_bind with (Q := fun _ => True); [apply keeps_load|intros lA _].
  apply keeps_bind with (Q := fun p => (n0 <= p)%nat); [apply keeps_alloc|intros pvg Hpvg].
  apply keeps_bind with (Q := fun p => (n0 <= p)%nat); [apply keeps_alloc|intros l Hl].
  apply keeps_bind with (Q := fun _ => True).
  2: { intros _ _. apply keeps_ret. exact Hpvg. }
  apply keeps_for. intros frame.
  apply keeps_bind with (Q := fun _ => True).
  - apply keeps_for. intros i. apply keeps_for. intros q.
    apply keeps_bind with (Q := fun _ => True); [apply keeps_read|intros v _].
    apply keeps_write. exact Hl.
  - intros _ _. apply keeps_for. intros i.
    apply keeps_bind with (Q := fun _ => True); [apply keeps_sum_st|intros c _].
    apply keeps_write. exact Hpvg.
Qed.

Lemma get_labels_st_keeps n0 x_low x_high coef intercept H W steps :
  keeps n0 (get_labels_st x_low x_high coef intercept H W steps)
    (fun r => forall p, r = Some p -> (n0 <= p)%nat).
Proof.
  unfold get_labels_st.
  destruct (get_labels x_low x_high coef intercept (H, W) steps) as [lab|].
  - apply keeps_bind with (Q := fun p => (n0 <= p)%nat); [apply keeps_alloc|intros p Hp].
    apply keeps_bind with (Q := fun _ => True).
    + apply keeps_for. intros i. apply keeps_for. intros j. apply keeps_write. exact Hp.
    + intros _ _. apply keeps_ret. intros p' [= <-]. exact Hp.
  - apply keeps_ret. discriminate.
Qed.

(** C9: no stage mutates its caller's arrays. [compute_pvg] returns a
    newly allocated array (an address past the heap it started on, so
    neither [s] nor [labels]) and every array that existed before the call
    holds the same shape and cells afterwards; [get_labels], whose inputs
    are immutable Python values, returns a newly allocated label array and
    leaves every existing array unchanged. *)
Theorem pipeline_does_not_mutate_inputs :
  (forall ps pl steps h,
     (ps < length h)%nat -> (pl < length h)%nat ->
     let (r, h') := compute_pvg_st ps pl steps h in
     (length h <= r)%nat /\ r <> ps /\ r <> pl /\
     forall a, (a < length h)%nat -> nth_error h' a = nth_error h a) /\
  (forall x_low x_high coef intercept H W steps h,
     let (r, h') := get_labels_st x_low x_high coef intercept H W steps h in
     (forall p, r = Some p -> (length h <= p)%nat) /\
     forall a, (a < length h)%nat -> nth_error h' a = nth_error h a).
Proof.
  split.
  - intros ps pl steps h Hps Hpl.
    destruct (compute_pvg_st_keeps (length h) ps pl steps h (le_n _)) as (_ & Hr & Hfr).
    destruct (compute_pvg_st ps pl steps h) as [r h']. simpl in *.
    repeat split; auto; lia.
  - intros x_low x_high coef intercept H W steps h.
    destruct (get_labels_st_keeps (length h) x_low x_high coef intercept H W steps h (le_n _))
      as (_ & Hr & Hfr).
    destruct (get_labels_st x_low x_high coef intercept H W steps h) as [r h']. simpl in *.
    auto.
Qed.

(** C5 (amended): [_find_orthogonal_points] raises exactly when
    [steps < 0]; otherwise [xs] has [steps] values, [xs[0] = x_low],
    [xs[steps-1] = x_high] and consecutive samples differ by
    [(x_high - x_low) / (steps - 1)] when [steps >= 2], [xs = [x_low]] when
    [steps = 1]; [ys = coef * xs + intercept], a single
    [coef_orth = tan(atan(coef) - pi/2)] and
    [intercepts_orth[k] = ys[k] - coef_orth * xs[k]] (exact arithmetic). *)
Theorem find_orthogonal_points_samples x_low x_high coef intercept steps :
  (_find_orthogonal_points x_low x_high coef intercept steps = None <-> (steps < 0)%Z) /\
  forall xs ys co io,
    _find_orthogonal_points x_low x_high coef intercept steps = Some (xs, ys, co, io) ->
    samples_ok x_low x_high coef intercept steps xs ys co io.
Proof.
  split.
  - unfold _find_orthogonal_points. rewrite <- (linspace_None x_low x_high).
    destruct (linspace x_low x_high steps); split; congruence.
  - intros xs ys co io Hf.
    pose proof (find_orthogonal_points_shape _ _ _ _ _ _ _ _ _ Hf) as (Hl & Hco & Hys & Hio & Hk).
    unfold samples_ok. split; [exact (linspace_length _ _ _ _ Hl)|].
    split; [|split; [|exact (conj Hco (conj Hys (conj Hio Hk)))]].
    + intros H2. set (m := (Z.to_nat steps - 1)%nat).
      assert (Hm : (1 <= m)%nat) by (unfold m; lia).
      assert (Hs : steps = Z.of_nat (S m)) by (unfold m; lia).
      assert (Hsm : Z.to_nat steps = S m) by (rewrite Hs; apply Nat2Z.id).
      rewrite Hsm. replace (S m - 1)%nat with m by lia.
      assert (HINR : INR m <> 0) by (apply not_0_INR; lia).
      rewrite Hs in Hl.
      split; [|split].
      * rewrite (linspace_nth _ _ _ _ 0 Hm Hl) by lia. simpl. ring.
      * rewrite (linspace_nth _ _ _ _ m Hm Hl) by lia. field. exact HINR.
      * intros k Hk'.
        rewrite (linspace_nth _ _ _ _ k Hm Hl) by lia.
        rewrite (linspace_nth _ _ _ _ (S k) Hm Hl) by lia.
        rewrite S_INR. field. exact HINR.
    + intros ->. unfold linspace in Hl. simpl in Hl. injection Hl as <-. reflexivity.
Qed.

(** C5 counterexample: with [steps = 1], [x_low = 0], [x_high = 1] the
    single sample is [0]; [x_high] is not among the samples. *)
Lemma find_orthogonal_points_one_sample :
  exists xs ys co io,
    _find_orthogonal_points 0 1 1 0 1 = Some (xs, ys, co, io) /\
    length xs = 1%nat /\ ~ In 1 xs.
Proof.
  do 4 eexists. split; [reflexivity|]. split; [reflexivity|].
  simpl. intros [H|[]]. lra.
Qed.

Lemma find_orthogonal_points_samples_witness :
  exists xs ys co io,
    _find_orthogonal_points 0 3 (1/2) 2 4 = Some (xs, ys, co, io) /\
    samples_ok 0 3 (1/2) 2 4 xs ys co io.
Proof.
  do 4 eexists. split; [reflexivity|].
  apply (find_orthogonal_points_samples 0 3 (1/2) 2 4). reflexivity.
Defined.

(** C6: [_create_maps] returns one [H x W] array per intercept whose
    cell [(k, y, x)] is [y - (c * x + i[k])]. *)
Theorem create_maps_cells H W c i k y x :
  (k < length i)%nat -> (y < H)%nat -> (x < W)%nat ->
  length (_create_maps (H, W) c i) = length i /\
  length (nth k (_create_maps (H, W) c i) []) = H /\
  length (nth y (nth k (_create_maps (H, W) c i) []) []) = W /\
  nth x (nth y (nth k (_create_maps (H, W) c i) []) []) 0 = INR y - (c * INR x + nth k i 0).
Proof.
  intros Hk Hy Hx. unfold _create_maps.
  rewrite length_map. split; [reflexivity|].
  rewrite (nth_map_lt _ _ _ _ 0) by exact Hk.
  rewrite length_map, length_seq. split; [reflexivity|].
  rewrite nth_map_seq by exact Hy.
  rewrite length_map, length_seq. split; [reflexivity|].
  rewrite nth_map_seq by exact Hx. reflexivity.
Qed.

Lemma create_maps_cells_witness :
  (1 < length [2; 5])%nat /\ (2 < 4)%nat /\ (3 < 4)%nat /\
  nth 3 (nth 2 (nth 1 (_create_maps (4%nat, 4%nat) (1/2) [2; 5]) []) []) 0
  = INR 2 - (1/2 * INR 3 + nth 1 [2; 5] 0).
Proof.
  split; [simpl; lia|]. split; [lia|]. split; [lia|].
  apply (create_maps_cells 4 4 (1/2) [2; 5] 1 2 3); simpl; lia.
Defined.

Lemma classifier_guarantee_le_255 n : (n <= 255)%nat -> classifier_guarantee n.
Proof.
  intros Hn H W lp lr lab Hlen Hfp.
  apply find_parts_Some in Hfp as [Hrows Hcells].
  unfold labels_in_range. apply Forall_nth. intros i d Hi. rewrite Hrows in Hi.
  rewrite nth_indep with (d' := []) by lia.
  destruct (Hcells i Hi) as [Hw Hc].
  apply Forall_nth. intros j d' Hj. rewrite Hw in Hj.
  rewrite nth_indep with (d' := 0%Z) by lia.
  rewrite <- Hlen. apply (pixel_label_bound lp lr i j); [apply Hc, Hj | lia].
Qed.

Lemma find_parts_zero_at_255 n : (256 <= n)%nat ->
  _find_parts (1%nat, 1%nat) (zero_at_255 n) [[0]] = Some [[0%Z]].
Proof.
  intros Hn.
  assert (Hlp : length (zero_at_255 n) = n) by (unfold zero_at_255; rewrite length_map, length_seq; reflexivity).
  assert (Hat : forall k, (k < n)%nat ->
            at2 (nth k (zero_at_255 n) []) 0 0 = if Nat.eqb k 255 then 0 else 1).
  { intros k Hk. unfold zero_at_255. rewrite nth_map_seq by exact Hk. reflexivity. }
  assert (Hpx : pixel_label (zero_at_255 n) [[0]] 0 0 = Some 0%Z).
  2: { unfold _find_parts. cbn [seq map]. rewrite Hpx. reflexivity. }
  unfold pixel_label. fold (keys (zero_at_255 n) 0 0).
  destruct (argmin (keys (zero_at_255 n) 0 0)) as [c|] eqn:Ha.
  - replace c with 255%nat.
    + unfold at2. simpl nth. destruct (Rle_dec 0 0) as [_|Hne]; [reflexivity | lra].
    + symmetry. apply (argmin_unique_zero _ c 255 Ha).
      * rewrite length_keys, Hlp. lia.
      * rewrite nth_keys by lia. rewrite Hat by lia. apply Rabs_R0.
      * intros k Hk Hne. rewrite length_keys, Hlp in Hk.
        rewrite nth_keys by lia. rewrite Hat by lia.
        apply Nat.eqb_neq in Hne. rewrite Hne. rewrite Rabs_R1. lra.
  - apply argmin_None in Ha. unfold keys, column in Ha.
    apply (f_equal (@length R)) in Ha. rewrite !length_map, Hlp in Ha. simpl in Ha. lia.
Qed.

Lemma classifier_guarantee_ge_256 n : (256 <= n)%nat -> ~ classifier_guarantee n.
Proof.
  intros Hn Hg.
  assert (Hlen : length (zero_at_255 n) = n) by (unfold zero_at_255; rewrite length_map, length_seq; reflexivity).
  specialize (Hg 1%nat 1%nat (zero_at_255 n) [[0]] [[0%Z]] Hlen (find_parts_zero_at_255 n Hn)).
  inversion Hg as [|r t Hr _]. inversion Hr as [|v t' [Hv _] _]. apply Hv. reflexivity.
Qed.

(** C10 (amended): each label is [sign * (closest + 1)] stored into an
    int8 (reduced modulo 2^8 into [-128, 127]), [closest] being the first
    index minimising [|labels_parallel[k, y, x]|] and [sign = +1] iff
    [labels_LR[y, x] >= 0]; the range guarantee (nonzero, magnitude in
    [[1, steps]]) holds for every input exactly when [steps <= 255]; from
    [steps = 128] on labels can wrap, e.g. [+128] is stored as [-128]. *)
Theorem classifier_int8_labels :
  (forall lp lr i j v,
     pixel_label lp lr i j = Some v ->
     exists closest,
       (closest < length lp)%nat /\
       (forall k, (k < length lp)%nat ->
          Rabs (at2 (nth closest lp []) i j) <= Rabs (at2 (nth k lp []) i j)) /\
       (forall k, (k < closest)%nat ->
          Rabs (at2 (nth closest lp []) i j) < Rabs (at2 (nth k lp []) i j)) /\
       (0 <= at2 lr i j -> v = wrap8 (Z.of_nat closest + 1)) /\
       (at2 lr i j < 0 -> v = wrap8 (- (Z.of_nat closest + 1)))) /\
  (forall n, classifier_guarantee n <-> (n <= 255)%nat) /\
  get_labels (-127) 0 1 0 (1%nat, 1%nat) 128 = Some [[(-128)%Z]].
Proof.
  split; [exact pixel_label_spec|]. split.
  - intros n. split.
    + intros Hg. destruct (Nat.le_gt_cases n 255) as [|Hgt]; [assumption|].
      exfalso. exact (classifier_guarantee_ge_256 n Hgt Hg).
    + apply classifier_guarantee_le_255.
  - change (-127) with (- IZR (Z.of_nat 127)). rewrite <- INR_IZR_INZ.
    change 128%Z with (Z.of_nat (S 127)). rewrite get_labels_diag by lia. reflexivity.
Qed.

(** C10 counterexample: the range guarantee also holds for
    [steps = 128], so it does not need [steps <= 127]. *)
Lemma classifier_guarantee_beyond_127 : ~ (forall n, classifier_guarantee n -> (n <= 127)%nat).
Proof.
  intros H. specialize (H 128%nat (classifier_guarantee_le_255 128 ltac:(lia))). lia.
Qed.

Lemma get_labels_diag_255 : get_labels (-255) 0 1 0 (1%nat, 1%nat) 256 = Some [[0%Z]].
Proof.
  change (-255) with (- IZR (Z.of_nat 255)). rewrite <- INR_IZR_INZ.
  change 256%Z with (Z.of_nat (S 255)). rewrite get_labels_diag by lia. reflexivity.
Qed.

(** C1 (fails on the code): with [steps = 256] the classifier labels the
    pixel of [get_labels(-255, 0, 1, 0, (1, 1), 256)] with [0] (int8 store of
    [256]); for a mask with that pixel true the PVG row sums to [0] while
    the popcount is [1]. *)
Theorem pvg_row_sum_misses_label_0 :
  get_labels (-255) 0 1 0 (1%nat, 1%nat) 256 = Some [[0%Z]] /\
  compute_pvg [[[true]]] [[[0%Z]]] 256 = Some [repeat 0%Z 512] /\
  fold_right Z.add 0%Z (repeat 0%Z 512) = 0%Z /\
  popcount [[true]] = 1%nat.
Proof.
  split; [exact get_labels_diag_255|]. split; [vm_compute; reflexivity|].
  split; reflexivity.
Qed.

(** C2 (fails on the code): [get_labels(-255, 0, 1, 0, (1, 1), 256)]
    labels its pixel [0]. *)
Theorem get_labels_label_0_at_256 :
  get_labels (-255) 0 1 0 (1%nat, 1%nat) 256 = Some [[0%Z]].
Proof. exact get_labels_diag_255. Qed.

(** C3 (fails on the code): for [get_labels(-127, 0, 1, 0, (1, 1), 128)]
    the pixel has [closest = 127] and [sign = +1], yet its label is [-128],
    not [128]. *)
Theorem get_labels_label_128_wraps :
  get_labels (-127) 0 1 0 (1%nat, 1%nat) 128 = Some [[(-128)%Z]].
Proof.
  change (-127) with (- IZR (Z.of_nat 127)). rewrite <- INR_IZR_INZ.
  change 128%Z with (Z.of_nat (S 127)). rewrite get_labels_diag by lia. reflexivity.
Qed.

(** C7 (amended): [get_labels] raises exactly when [steps < 0] or when
    [steps = 0] on an image with at least one pixel; [x_low = x_high] is not
    rejected. *)
Theorem get_labels_error_conditions x_low x_high coef intercept H W steps :
  get_labels x_low x_high coef intercept (H, W) steps = None
  <-> ((steps < 0)%Z \/ (steps = 0%Z /\ (0 < H)%nat /\ (0 < W)%nat)).
Proof. apply get_labels_None. Qed.

(** C7 counterexample: [x_low = x_high = 0] gives a normal label map,
    and so does [steps = 0] on an empty image. *)
Lemma get_labels_equal_bounds_succeeds :
  get_labels 0 0 1 0 (1%nat, 1%nat) 1 <> None /\
  get_labels 0 1 1 0 (0%nat, 0%nat) 0 = Some [].
Proof.
  split.
  - rewrite get_labels_None. lia.
  - reflexivity.
Qed.

Lemma compute_pvg_bin_counts_witness :
  compute_pvg [[[true; false]; [true; true]]] [[[1; -1]; [2; -1]]]%Z 2%Z
    = Some [[1; 1; 1; 0]]%Z /\
  nth 2 (nth 0 [[1; 1; 1; 0]]%Z []) 0%Z
    = Z.of_nat (pixel_count [[true; false]; [true; true]] [[1; -1]; [2; -1]]%Z
                 (label_of_bin 2 2)).
Proof.
  split; [reflexivity|].
  apply (compute_pvg_bin_counts [[[true; false]; [true; true]]] [[[1; -1]; [2; -1]]]%Z 2%Z
           [[1; 1; 1; 0]]%Z); [reflexivity | simpl; lia | simpl; lia].
Defined.

Lemma compute_pvg_empty_frame_witness :
  (0 <= 2)%Z /\
  exists pvg, compute_pvg [[[false; false]]; [[true; false]]] [[[1; -1]]; [[2; 1]]]%Z 2%Z = Some pvg
              /\ nth 0 pvg [] = repeat 0%Z (2 * Z.to_nat 2).
Proof.
  split; [lia|].
  apply (compute_pvg_empty_frame [[[false; false]]; [[true; false]]] [[[1; -1]]; [[2; 1]]]%Z 2%Z 0).
  - lia.
  - simpl. lia.
  - intros t' Ht'. simpl in Ht'. destruct t' as [|[|t']]; [reflexivity | reflexivity | lia].
  - simpl. lia.
  - repeat constructor.
Defined.

(** ** Sum of a PVG row *)

Lemma sum_bins_cons (L : list Z) (b : bool) (w : Z) (P : list (bool * Z)) :
  fold_right Z.add 0%Z
    (map (fun j => Z.of_nat (length (filter (fun p : bool * Z => fst p && Z.eqb (snd p) j)
                                      ((b, w) :: P)))) L)
  = ((if b then Z.of_nat (count_occ Z.eq_dec L w) else 0) +
     fold_right Z.add 0%Z
       (map (fun j => Z.of_nat (length (filter (fun p : bool * Z => fst p && Z.eqb (snd p) j) P))) L))%Z.
Proof.
  induction L as [|j L IH]; [destruct b; reflexivity|].
  cbn [map fold_right count_occ]. rewrite IH. cbn [filter fst snd].
  destruct b; cbn [andb].
  - destruct (Z.eqb_spec w j) as [->|Hne].
    + destruct (Z.eq_dec j j) as [_|]; [|congruence]. cbn [length]. lia.
    + destruct (Z.eq_dec j w) as [|_]; [congruence|]. lia.
  - lia.
Qed.

Lemma sum_bins_swap (L : list Z) (P : list (bool * Z)) :
  fold_right Z.add 0%Z
    (map (fun j => Z.of_nat (length (filter (fun p : bool * Z => fst p && Z.eqb (snd p) j) P))) L)
  = fold_right Z.add 0%Z
      (map (fun p : bool * Z => if fst p then Z.of_nat (count_occ Z.eq_dec L (snd p)) else 0%Z) P).
Proof.
  induction P as [|[b w] P IH].
  - simpl. induction L as [|j L IHL]; simpl; lia.
  - rewrite sum_bins_cons, IH. reflexivity.
Qed.

Lemma NoDup_map_injective {A B : Type} (f : A -> B) (l : list A) :
  (forall x y, f x = f y -> x = y) -> NoDup l -> NoDup (map f l).
Proof.
  intros Hinj Hnd. induction Hnd as [|x l Hx _ IH]; simpl; constructor; auto.
  intros Hin. apply in_map_iff in Hin as (y & Hy & Hyl).
  apply Hinj in Hy. subst y. contradiction.
Qed.

Lemma all_steps_count n w : (w <> 0)%Z -> (Z.abs w <= Z.of_nat n)%Z ->
  count_occ Z.eq_dec (all_steps n) w = 1%nat.
Proof.
  intros Hw Hn. apply NoDup_count_occ'.
  - rewrite all_steps_split. apply NoDup_app.
    + apply NoDup_rev. apply NoDup_map_injective; [intros x y; lia | apply seq_NoDup].
    + rewrite map_map. apply NoDup_map_injective; [intros x y; lia | apply seq_NoDup].
    + intros x Hx1 Hx2. apply in_rev in Hx1. apply in_map_iff in Hx1 as (a & <- & Ha).
      rewrite map_map in Hx2. apply in_map_iff in Hx2 as (c & Hc & Hcin).
      apply in_seq in Ha, Hcin. lia.
  - rewrite all_steps_split. apply in_or_app.
    destruct (Z.ltb_spec 0 w).
    + left. rewrite <- in_rev. apply in_map_iff. exists (Z.to_nat w). split; [lia|]. apply in_seq. lia.
    + right. rewrite map_map. apply in_map_iff. exists (n + Z.to_nat (- w))%nat.
      split; [lia|]. apply in_seq. lia.
Qed.


Lemma same_shape_concat {A B : Type} (f : list (list A)) (lab : list (list B)) :
  same_shape f lab = true -> length (concat f) = length (concat lab).
Proof.
  unfold same_shape. revert lab; induction f as [|r f IH]; intros [|rl lab] Hs;
    simpl in *; try reflexivity; try discriminate.
  apply andb_prop in Hs as [Hlen Hs]. apply andb_prop in Hs as [Hr Hs].
  apply Nat.eqb_eq in Hr. rewrite !length_app, Hr, (IH lab); [reflexivity|].
  rewrite Hs, andb_true_r. exact Hlen.
Qed.

Lemma popcount_combine (bs : list bool) (ws : list Z) :
  length bs = length ws ->
  fold_right Z.add 0%Z (map (fun p : bool * Z => if fst p then 1%Z else 0%Z) (combine bs ws))
  = Z.of_nat (length (filter (fun b => b) bs)).
Proof.
  revert ws; induction bs as [|b bs IH]; intros [|w ws] Hl; simpl in *; try reflexivity;
    try discriminate.
  rewrite IH by lia. destruct b; cbn -[Z.of_nat Z.add]; rewrite ?Nat2Z.inj_succ; lia.
Qed.

Lemma sum_count_one (L : list Z) (P : list (bool * Z)) :
  (forall p, In p P -> fst p = true -> count_occ Z.eq_dec L (snd p) = 1%nat) ->
  fold_right Z.add 0%Z
    (map (fun p : bool * Z => if fst p then Z.of_nat (count_occ Z.eq_dec L (snd p)) else 0%Z) P)
  = fold_right Z.add 0%Z (map (fun p : bool * Z => if fst p then 1%Z else 0%Z) P).
Proof.
  induction P as [|[b w] P IH]; intros Hc; simpl; [reflexivity|].
  rewrite IH by (intros p Hp; apply Hc; right; exact Hp).
  destruct b; [|reflexivity]. pose proof (Hc (true, w) (or_introl eq_refl) eq_refl) as E.
  simpl in E |- *. rewrite E. reflexivity.
Qed.

(** When every segmented pixel of frame [t] carries a label of a bin
    (nonzero, magnitude at most [steps]), row [t] of the PVG sums to the
    number of segmented pixels. *)
Lemma compute_pvg_row_sum s labels steps pvg t :
  compute_pvg s labels steps = Some pvg -> (t < length s)%nat ->
  (forall p, In p (combine (concat (nth t s [])) (concat (nth t labels []))) ->
     fst p = true -> snd p <> 0%Z /\ (Z.abs (snd p) <= steps)%Z) ->
  fold_right Z.add 0%Z (nth t pvg []) = Z.of_nat (popcount (nth t s [])).
Proof.
  intros Hc Ht Hin.
  apply compute_pvg_Some in Hc as (Hst & _ & Hshape & ->).
  rewrite (nth_map_seq _ (length s) t [] Ht). rewrite map_map.
  rewrite (map_ext_in _ (fun j => Z.of_nat (pixel_count (nth t s []) (nth t labels []) j))).
  2: { intros j _. apply sum2_count, Hshape, Ht. }
  unfold pixel_count. rewrite sum_bins_swap, sum_count_one.
  - apply popcount_combine, same_shape_concat, Hshape, Ht.
  - intros p Hp Hf. destruct (Hin p Hp Hf) as [H0 Hle].
    apply all_steps_count; [exact H0 | lia].
Qed.

(** For label maps from the classifier with [steps <= 255] maps, every
    PVG row sums to the popcount of its mask. *)
Lemma compute_pvg_row_sum_classifier s labels steps pvg t :
  (steps <= 255)%nat ->
  compute_pvg s labels (Z.of_nat steps) = Some pvg -> (t < length s)%nat ->
  labels_in_range steps (nth t labels []) ->
  fold_right Z.add 0%Z (nth t pvg []) = Z.of_nat (popcount (nth t s [])).
Proof.
  intros _ Hc Ht Hr. apply (compute_pvg_row_sum s labels _ pvg t Hc Ht).
  intros [b v] Hp _. simpl snd. apply in_combine_r, in_concat in Hp as (row & Hrow & Hv).
  unfold labels_in_range in Hr. rewrite Forall_forall in Hr.
  specialize (Hr row Hrow). rewrite Forall_forall in Hr.
  destruct (Hr _ Hv) as [H0 H1]. split; [exact H0 | lia].
Qed.

(** ** Further properties of the pipeline and of the audio synchronisation *)


Lemma nth_set_nth {A : Type} i (v : A) l j d :
  nth j (set_nth i v l) d
  = if Nat.eqb j i then (if Nat.ltb i (length l) then v else nth j l d) else nth j l d.
Proof.
  revert i j; induction l as [|x l IH]; intros [|i] [|j]; simpl; auto;
    destruct (Nat.eqb _ _); reflexivity.
Qed.

Lemma rolling_fold_length x w l acc :
  length (fold_left (rolling_std_step x w) l acc) = length acc.
Proof.
  revert acc; induction l as [|i l IH]; intros acc; simpl; [reflexivity|].
  rewrite IH. unfold rolling_std_step. apply set_nth_length.
Qed.

Lemma rolling_fold_nth x w a k acc j : (w <= a)%nat ->
  nth j (fold_left (rolling_std_step x w) (seq a k) acc) 0
  = if (a <=? j + w / 2)%nat && (j + w / 2 <? a + k)%nat && (j <? length acc)%nat
    then np_std (slice_nat x (j + w / 2 - w) (j + w / 2)) else nth j acc 0.
Proof.
  pose proof (Nat.div_mod_eq w 2). pose proof (Nat.mod_upper_bound w 2 ltac:(lia)).
  set (q := (w / 2)%nat) in *.
  revert a acc; induction k as [|k IH]; intros a acc Ha.
  - cbn [seq fold_left]. destruct (Nat.leb_spec a (j + q)), (Nat.ltb_spec (j + q) (a + 0));
      cbn [andb]; try lia; reflexivity.
  - cbn [seq fold_left]. rewrite IH by lia.
    replace (rolling_std_step x w acc a)
      with (set_nth (a - q) (np_std (slice_nat x (a - w) a)) acc) by reflexivity.
    rewrite set_nth_length, nth_set_nth.
    destruct (Nat.leb_spec (S a) (j + q)), (Nat.ltb_spec (j + q) (S a + k)),
      (Nat.ltb_spec j (length acc)), (Nat.eqb_spec j (a - q)),
      (Nat.ltb_spec (a - q) (length acc)), (Nat.leb_spec a (j + q)),
      (Nat.ltb_spec (j + q) (a + S k)); cbn [andb]; try lia; try reflexivity.
    all: replace (j + q)%nat with a by lia; reflexivity.
Qed.

Lemma rolling_std_length x w : length (_rolling_std_numba x w) = length x.
Proof. unfold _rolling_std_numba. rewrite rolling_fold_length. apply repeat_length. Qed.

Lemma rolling_std_nth x w j :
  nth j (_rolling_std_numba x w) 0
  = if (w - w / 2 <=? j)%nat && (j + w / 2 <? length x)%nat
    then np_std (slice_nat x (j + w / 2 - w) (j + w / 2)) else 0.
Proof.
  pose proof (Nat.div_mod_eq w 2). pose proof (Nat.mod_upper_bound w 2 ltac:(lia)).
  unfold _rolling_std_numba. rewrite rolling_fold_nth by lia.
  rewrite repeat_length, nth_repeat.
  set (q := (w / 2)%nat) in *.
  destruct (Nat.leb_spec w (j + q)), (Nat.ltb_spec (j + q) (w + (length x - w))),
    (Nat.ltb_spec j (length x)), (Nat.leb_spec (w - q) j),
    (Nat.ltb_spec (j + q) (length x)); cbn [andb]; try lia; reflexivity.
Qed.



Lemma sumR_const (l : list R) c :
  (forall v, In v l -> v = c) -> fold_right Rplus 0 l = INR (length l) * c.
Proof.
  induction l as [|v l IH]; intros Hc; simpl; [ring|].
  rewrite IH by (intros u Hu; apply Hc; right; exact Hu).
  rewrite (Hc v (or_introl eq_refl)). destruct (length l); simpl; ring.
Qed.




Lemma np_std_nil : np_std [] = 0.
Proof. unfold np_std, np_mean. simpl. unfold Rdiv. rewrite Rmult_0_l. apply sqrt_0. Qed.

Lemma np_std_const (l : list R) c : (forall v, In v l -> v = c) -> np_std l = 0.
Proof.
  intros Hc. destruct l as [|v0 l0] eqn:El; [apply np_std_nil|]. rewrite <- El in *.
  assert (Hn : INR (length l) <> 0) by (subst l; simpl length; apply not_0_INR; lia).
  assert (Hm : np_mean l = c).
  { unfold np_mean. rewrite (sumR_const l c Hc). field. exact Hn. }
  unfold np_std. rewrite Hm.
  rewrite (sumR_const (map (fun v => (v - c) ^ 2) l) 0).
  - rewrite Rmult_0_r. unfold Rdiv. rewrite Rmult_0_l. apply sqrt_0.
  - intros u Hu. apply in_map_iff in Hu as (v & <- & Hv). rewrite (Hc v Hv). ring.
Qed.



Lemma In_slice_nat {A : Type} (v : A) l a b : In v (slice_nat l a b) -> In v l.
Proof.
  unfold slice_nat. intros Hv.
  rewrite <- (firstn_skipn a l). apply in_or_app. right.
  rewrite <- (firstn_skipn (b - a) (skipn a l)). apply in_or_app. left. exact Hv.
Qed.

(** [_rolling_std_numba] of a constant signal is zero everywhere: a
    silent or DC-only reference signal gives no rolling deviation. *)
Theorem rolling_std_numba_constant c n w (Hw : (1 <= w)%nat) :
  _rolling_std_numba (repeat c n) w = repeat 0 n.
Proof.
  apply nth_ext with (d := 0) (d' := 0).
  - rewrite rolling_std_length, !repeat_length. reflexivity.
  - intros j _. rewrite rolling_std_nth, nth_repeat.
    destruct (_ && _); [|reflexivity].
    apply np_std_const with (c := c). intros v Hv.
    apply In_slice_nat, repeat_spec in Hv. exact Hv.
Qed.



Lemma py_getitem_None {A : Type} (l : list A) i :
  py_getitem l i = None <-> ~ (- Z.of_nat (length l) <= i < Z.of_nat (length l))%Z.
Proof.
  unfold py_getitem.
  destruct (Z.ltb_spec i 0);
    match goal with |- context [(0 <=? ?j)%Z && (?j <? ?n)%Z] =>
      destruct (Z.leb_spec 0 j), (Z.ltb_spec j n) end; cbn [andb];
    split; intros Hn; try lia; try reflexivity.
  all: exfalso; apply nth_error_None in Hn; lia.
Qed.

Lemma py_getitem_nonneg {A : Type} (l : list A) i :
  (0 <= i)%Z -> py_getitem l i = nth_error l (Z.to_nat i).
Proof.
  intros Hi. unfold py_getitem.
  destruct (Z.ltb_spec i 0); [lia|].
  destruct (Z.leb_spec 0 i), (Z.ltb_spec i (Z.of_nat (length l))); cbn [andb]; try lia;
    [reflexivity|].
  symmetry. apply nth_error_None. lia.
Qed.

Lemma py_getitem_wrap {A : Type} (l : list A) i :
  (- Z.of_nat (length l) <= i < 0)%Z -> py_getitem l i = py_getitem l (i + Z.of_nat (length l)).
Proof.
  intros Hi. rewrite (py_getitem_nonneg l (i + _)) by lia. unfold py_getitem.
  destruct (Z.ltb_spec i 0); [|lia].
  destruct (Z.leb_spec 0 (i + Z.of_nat (length l))),
    (Z.ltb_spec (i + Z.of_nat (length l)) (Z.of_nat (length l))); cbn [andb]; try lia.
  reflexivity.
Qed.

Lemma py_slice_from {A : Type} (l : list A) a :
  py_slice l (Some a) None
  = skipn (Z.to_nat (py_bound (Z.of_nat (length l)) 0 (Some a))) l.
Proof.
  unfold py_slice. cbn [py_bound].
  apply firstn_all2. rewrite length_skipn.
  destruct (Z.ltb_spec a 0); lia.
Qed.

Lemma py_slice_prefix {A : Type} (l : list A) b :
  (0 <= b)%Z -> py_slice l None (Some b) = firstn (Z.to_nat b) l.
Proof.
  intros Hb. unfold py_slice. cbn [py_bound].
  destruct (Z.ltb_spec b 0); [lia|]. rewrite Z.sub_0_r. cbn [skipn Z.to_nat].
  destruct (Z.le_ge_cases b (Z.of_nat (length l))).
  - rewrite Z.min_l by lia. reflexivity.
  - rewrite Z.min_r by lia. rewrite Nat2Z.id, !firstn_all2; [reflexivity | lia | lia].
Qed.

Lemma py_slice_range {A : Type} (l : list A) a b :
  (0 <= a)%Z -> (0 <= b <= Z.of_nat (length l))%Z ->
  py_slice l (Some a) (Some b) = slice_nat l (Z.to_nat a) (Z.to_nat b).
Proof.
  intros Ha Hb. unfold py_slice, slice_nat. cbn [py_bound].
  destruct (Z.ltb_spec a 0), (Z.ltb_spec b 0); try lia.
  rewrite (Z.min_l b) by lia.
  destruct (Z.le_ge_cases a (Z.of_nat (length l))).
  - rewrite Z.min_l by lia. rewrite Z2Nat.inj_sub by lia. reflexivity.
  - rewrite Z.min_r by lia.
    replace (Z.to_nat (b - Z.of_nat (length l))) with 0%nat by lia.
    replace (Z.to_nat b - Z.to_nat a)%nat with 0%nat by lia. reflexivity.
Qed.

Lemma recorded_frames_last {A : Type} (f : list A) t :
  (0 < t <= Z.of_nat (length f))%Z ->
  py_slice f (Some (- t)%Z) None = skipn (Z.to_nat (Z.of_nat (length f) - t)) f.
Proof.
  intros Ht. rewrite py_slice_from. cbn [py_bound].
  destruct (Z.ltb_spec (- t) 0); [|lia]. f_equal. lia.
Qed.

Lemma recorded_frames_all {A : Type} (f : list A) t :
  (t = 0 \/ Z.of_nat (length f) <= t)%Z -> py_slice f (Some (- t)%Z) None = f.
Proof.
  intros Ht. rewrite py_slice_from. cbn [py_bound].
  destruct (Z.ltb_spec (- t) 0).
  - rewrite Z.max_l by lia. reflexivity.
  - rewrite Z.min_l by lia. replace (Z.to_nat (- t)) with 0%nat by lia. reflexivity.
Qed.

(** For [1 <= start_frame, end_frame <= total_frames <= len(frame_idx)],
    peak indices in [[0, trigger_end]] and [trigger_end <= len(audio)],
    [sync] returns the audio samples from the peak of recorded frame
    [start_frame] up to (excluded) the peak of recorded frame [end_frame],
    the recorded frames being the last [total_frames] peaks; the result is
    empty when the end peak does not come after the start peak. *)
Theorem sync_select_frames (audio_signal : list R) trigger_end frame_idx
  start_frame end_frame total_frames
  (Ht : (0 < total_frames <= Z.of_nat (length frame_idx))%Z)
  (Hs : (1 <= start_frame <= total_frames)%Z)
  (He : (1 <= end_frame <= total_frames)%Z)
  (Hf : forall p, In p frame_idx -> (0 <= p <= trigger_end)%Z)
  (Ha : (trigger_end <= Z.of_nat (length audio_signal))%Z) :
  let first := (Z.of_nat (length frame_idx) - total_frames)%Z in
  sync_select audio_signal trigger_end frame_idx start_frame end_frame total_frames
  = Some (slice_nat audio_signal
            (Z.to_nat (nth (Z.to_nat (first + start_frame - 1)) frame_idx 0%Z))
            (Z.to_nat (nth (Z.to_nat (first + end_frame - 1)) frame_idx 0%Z))).
Proof.
  intros first. unfold sync_select.
  rewrite recorded_frames_last by exact Ht. fold first.
  assert (Hsel : forall k, (1 <= k <= total_frames)%Z ->
            py_getitem (skipn (Z.to_nat first) frame_idx) (k - 1)
            = Some (nth (Z.to_nat (first + k - 1)) frame_idx 0%Z)).
  { intros k Hk. rewrite py_getitem_nonneg by lia. rewrite nth_error_skipn.
    replace (Z.to_nat first + Z.to_nat (k - 1))%nat with (Z.to_nat (first + k - 1)) by lia.
    apply nth_error_nth'. unfold first. lia. }
  rewrite (Hsel start_frame Hs), (Hsel end_frame He). f_equal.
  assert (Hin : forall k, (1 <= k <= total_frames)%Z ->
            (0 <= nth (Z.to_nat (first + k - 1)) frame_idx 0%Z <= trigger_end)%Z).
  { intros k Hk. apply Hf, nth_In. unfold first. lia. }
  pose proof (Hin start_frame Hs) as H1. pose proof (Hin end_frame He) as H2.
  assert (Hte : (0 <= trigger_end)%Z) by lia.
  rewrite py_slice_prefix by exact Hte.
  rewrite py_slice_range.
  - unfold slice_nat. rewrite skipn_firstn_comm, firstn_firstn. f_equal. lia.
  - lia.
  - rewrite length_firstn. lia.
Qed.


(** [total_frames = 0] (the slice [frame_idx[-0:]]) or a [total_frames]
    at least the number of peaks keeps every detected peak, exactly as
    [total_frames = len(frame_idx)]. *)
Theorem sync_select_all_frames (audio_signal : list R) trigger_end frame_idx
  start_frame end_frame total_frames
  (Ht : (total_frames = 0 \/ Z.of_nat (length frame_idx) <= total_frames)%Z) :
  sync_select audio_signal trigger_end frame_idx start_frame end_frame total_frames
  = sync_select audio_signal trigger_end frame_idx start_frame end_frame
      (Z.of_nat (length frame_idx)).
Proof.
  unfold sync_select. rewrite !recorded_frames_all by lia. reflexivity.
Qed.

(** A frame number [k] with [1 - r <= k <= 0], [r] the number of
    recorded frames, is Python's negative index [k - 1]: it selects the
    same frame as [k + r]; [start_frame = 0] is the last recorded frame. *)
Theorem sync_select_frames_from_end (audio_signal : list R) trigger_end frame_idx
  start_frame end_frame total_frames k :
  let r := Z.of_nat (length (py_slice frame_idx (Some (- total_frames)%Z) None)) in
  (1 - r <= k <= 0)%Z ->
  sync_select audio_signal trigger_end frame_idx k end_frame total_frames
  = sync_select audio_signal trigger_end frame_idx (k + r) end_frame total_frames /\
  sync_select audio_signal trigger_end frame_idx start_frame k total_frames
  = sync_select audio_signal trigger_end frame_idx start_frame (k + r) total_frames.
Proof.
  intros r Hk. unfold sync_select.
  set (rec := py_slice frame_idx (Some (- total_frames)%Z) None) in *.
  replace (k + r - 1)%Z with (k - 1 + Z.of_nat (length rec))%Z by (unfold r; lia).
  rewrite <- (py_getitem_wrap rec (k - 1)) by (unfold r in Hk; lia).
  split; reflexivity.
Qed.

(** [sync] raises [IndexError] exactly when [start_frame] or [end_frame]
    lies outside [[1 - r, r]], [r] the number of recorded frames. *)
Theorem sync_select_index_error (audio_signal : list R) trigger_end frame_idx
  start_frame end_frame total_frames :
  let r := Z.of_nat (length (py_slice frame_idx (Some (- total_frames)%Z) None)) in
  sync_select audio_signal trigger_end frame_idx start_frame end_frame total_frames = None
  <-> ~ (1 - r <= start_frame <= r)%Z \/ ~ (1 - r <= end_frame <= r)%Z.
Proof.
  intros r. unfold sync_select.
  set (rec := py_slice frame_idx (Some (- total_frames)%Z) None) in *.
  destruct (py_getitem rec (start_frame - 1)) eqn:E1.
  - assert (H1 : ~ ~ (- Z.of_nat (length rec) <= start_frame - 1 < Z.of_nat (length rec))%Z)
      by (rewrite <- py_getitem_None; congruence).
    destruct (py_getitem rec (end_frame - 1)) eqn:E2.
    + assert (H2 : ~ ~ (- Z.of_nat (length rec) <= end_frame - 1 < Z.of_nat (length rec))%Z)
        by (rewrite <- py_getitem_None; congruence).
      split; [discriminate|]. unfold r. lia.
    + apply py_getitem_None in E2. split; [intros _; right; unfold r; lia | reflexivity].
  - apply py_getitem_None in E1. split; [intros _; left; unfold r; lia | reflexivity].
Qed.


Lemma create_maps_at2 H W c io k i j :
  (k < length io)%nat -> (i < H)%nat -> (j < W)%nat ->
  at2 (nth k (_create_maps (H, W) c io) []) i j = INR i - (c * INR j + nth k io 0).
Proof.
  intros Hk Hi Hj. unfold _create_maps.
  rewrite (nth_map_lt _ _ _ _ 0) by exact Hk. unfold at2.
  rewrite (nth_map_seq (fun y => map (fun x => INR y - (c * INR x + nth k io 0)) (seq 0 W)))
    by exact Hi.
  rewrite (nth_map_seq (fun x => INR i - (c * INR x + nth k io 0))) by exact Hj.
  reflexivity.
Qed.

Lemma get_labels_parts x_low x_high coef intercept H W steps lab :
  get_labels x_low x_high coef intercept (H, W) steps = Some lab ->
  exists xs ys co io,
    _find_orthogonal_points x_low x_high coef intercept steps = Some (xs, ys, co, io) /\
    _find_parts (H, W) (_create_maps (H, W) co io)
      (nth 0 (_create_maps (H, W) coef [intercept]) []) = Some lab.
Proof.
  unfold get_labels.
  destruct (_find_orthogonal_points x_low x_high coef intercept steps)
    as [[[[xs ys] co] io]|]; [|discriminate].
  intros G. exists xs, ys, co, io. split; [reflexivity | exact G].
Qed.

Lemma linspace_const a n xs :
  linspace a a n = Some xs -> forall k, (k < length xs)%nat -> nth k xs 0 = a.
Proof.
  unfold linspace. destruct (n <? 0)%Z; [discriminate|].
  destruct (Z.to_nat n) as [|[|m]]; intros Hl k Hk;
    apply (f_equal (fun o => match o with Some l => l | None => [] end)) in Hl;
    cbv beta iota in Hl; subst xs.
  - cbn [length] in Hk. lia.
  - cbn [length] in Hk. destruct k; [reflexivity | lia].
  - rewrite length_map, length_seq in Hk. rewrite nth_map_seq by exact Hk.
    destruct (Nat.eqb k (S m)); [reflexivity|].
    replace (a - a) with 0 by ring. unfold Rdiv. ring.
Qed.

(** the label of a pixel [(i, j)] of a map returned by [get_labels] *)
Lemma get_labels_pixel x_low x_high coef intercept H W steps lab i j :
  get_labels x_low x_high coef intercept (H, W) steps = Some lab ->
  (i < H)%nat -> (j < W)%nat ->
  exists xs ys co io closest,
    _find_orthogonal_points x_low x_high coef intercept steps = Some (xs, ys, co, io) /\
    (closest < length io)%nat /\
    (forall k, (k < closest)%nat ->
       Rabs (INR i - (co * INR j + nth closest io 0)) < Rabs (INR i - (co * INR j + nth k io 0))) /\
    (0 <= INR i - (coef * INR j + intercept) ->
       nth j (nth i lab []) 0%Z = wrap8 (Z.of_nat closest + 1)) /\
    (INR i - (coef * INR j + intercept) < 0 ->
       nth j (nth i lab []) 0%Z = wrap8 (- (Z.of_nat closest + 1))).
Proof.
  intros G Hi Hj. apply get_labels_parts in G as (xs & ys & co & io & Hf & G).
  apply find_parts_Some in G as (_ & Hrows).
  destruct (Hrows i Hi) as (_ & Hcols). specialize (Hcols j Hj).
  apply pixel_label_spec in Hcols as (c & Hc & _ & Hfirst & Hpos & Hneg).
  rewrite create_maps_length in Hc.
  rewrite (create_maps_at2 H W coef [intercept] 0 i j) in Hpos, Hneg by (simpl; lia).
  exists xs, ys, co, io, c. repeat split; auto.
  intros k Hk. specialize (Hfirst k Hk).
  rewrite !create_maps_at2 in Hfirst by lia. exact Hfirst.
Qed.

(** For [steps >= 1], [get_labels] succeeds on every image shape
    [(H, W)] and returns [H] rows of [W] labels. *)
Theorem get_labels_map_shape x_low x_high coef intercept H W steps :
  (1 <= steps)%Z ->
  exists lab, get_labels x_low x_high coef intercept (H, W) steps = Some lab /\
    length lab = H /\ forall i, (i < H)%nat -> length (nth i lab []) = W.
Proof.
  intros Hs.
  destruct (get_labels x_low x_high coef intercept (H, W) steps) as [lab|] eqn:G.
  - exists lab. split; [reflexivity|].
    apply get_labels_parts in G as (xs & ys & co & io & _ & G).
    apply find_parts_Some in G as (Hlen & Hrows). split; [exact Hlen|].
    intros i Hi. apply (Hrows i Hi).
  - apply get_labels_None in G. lia.
Qed.

(** For [1 <= steps <= 127], a label is positive exactly at the pixels
    [(y, x)] on or above the AP axis ([y >= coef * x + intercept]) and
    negative exactly below it. *)
Theorem get_labels_sign_side x_low x_high coef intercept H W steps :
  (1 <= steps <= 127)%Z ->
  exists lab, get_labels x_low x_high coef intercept (H, W) steps = Some lab /\
    forall i j, (i < H)%nat -> (j < W)%nat ->
      ((0 < nth j (nth i lab []) 0%Z)%Z <-> coef * INR j + intercept <= INR i) /\
      ((nth j (nth i lab []) 0%Z < 0)%Z <-> INR i < coef * INR j + intercept).
Proof.
  intros Hs.
  destruct (get_labels x_low x_high coef intercept (H, W) steps) as [lab|] eqn:G.
  2: { apply get_labels_None in G. lia. }
  exists lab. split; [reflexivity|]. intros i j Hi Hj.
  destruct (get_labels_pixel _ _ _ _ _ _ _ _ i j G Hi Hj)
    as (xs & ys & co & io & c & Hf & Hc & _ & Hpos & Hneg).
  pose proof (find_orthogonal_points_length _ _ _ _ _ _ _ _ _ Hf) as Hlen.
  rewrite Hlen in Hc.
  destruct (Rle_dec 0 (INR i - (coef * INR j + intercept))) as [Hle|Hlt].
  - rewrite (Hpos Hle). unfold wrap8. rewrite Z.mod_small by lia.
    split; split; intros; lra || lia.
  - apply Rnot_le_lt in Hlt. rewrite (Hneg Hlt). unfold wrap8. rewrite Z.mod_small by lia.
    split; split; intros; lra || lia.
Qed.

(** With one orthogonal line ([steps = 1]), or with [x_low = x_high]
    (all orthogonal lines coincide), every pixel is labelled [1] on or
    above the AP axis and [-1] below it. *)
Theorem get_labels_two_sides x_low x_high coef intercept H W steps :
  (steps = 1 \/ (x_low = x_high /\ 1 <= steps))%Z ->
  get_labels x_low x_high coef intercept (H, W) steps
  = Some (map (fun i => map (fun j => if Rle_dec 0 (INR i - (coef * INR j + intercept))
                                      then 1%Z else (-1)%Z)
                            (seq 0 W))
              (seq 0 H)).
Proof.
  intros Hs.
  destruct (get_labels x_low x_high coef intercept (H, W) steps) as [lab|] eqn:G.
  2: { apply get_labels_None in G. lia. }
  f_equal.
  assert (Hshape := G). apply get_labels_parts in Hshape as (xs0 & ys0 & co0 & io0 & _ & Hp).
  apply find_parts_Some in Hp as (Hlen & Hrows).
  apply nth_ext with (d := []) (d' := []).
  - rewrite length_map, length_seq. exact Hlen.
  - intros i Hi. rewrite Hlen in Hi. rewrite nth_map_seq by exact Hi.
    apply nth_ext with (d := 0%Z) (d' := 0%Z).
    + rewrite length_map, length_seq. apply (Hrows i Hi).
    + intros j Hj. rewrite (proj1 (Hrows i Hi)) in Hj. rewrite nth_map_seq by exact Hj.
      destruct (get_labels_pixel _ _ _ _ _ _ _ _ i j G Hi Hj)
        as (xs & ys & co & io & c & Hf & Hc & Hfirst & Hpos & Hneg).
      assert (Hc0 : c = 0%nat).
      { pose proof (find_orthogonal_points_length _ _ _ _ _ _ _ _ _ Hf) as Hl.
        destruct Hs as [-> | [Heq Hs]]; [simpl in Hl; lia|].
        destruct c as [|c]; [reflexivity|]. exfalso.
        subst x_high.
        destruct (find_orthogonal_points_shape _ _ _ _ _ _ _ _ _ Hf)
          as (Hls & _ & _ & Hio & Hk).
        assert (Hv : forall k, (k < length xs)%nat -> nth k io 0 = coef * x_low + intercept - co * x_low).
        { intros k Hk'. destruct (Hk k Hk') as [Hy Hi']. rewrite Hi', Hy.
          rewrite (linspace_const _ _ _ Hls k Hk'). reflexivity. }
        specialize (Hfirst 0%nat ltac:(lia)).
        rewrite !Hv in Hfirst by lia. lra. }
      subst c.
      destruct (Rle_dec 0 (INR i - (coef * INR j + intercept))) as [Hle|Hlt].
      * rewrite (Hpos Hle). reflexivity.
      * apply Rnot_le_lt in Hlt. rewrite (Hneg Hlt). reflexivity.
Qed.


Lemma seq_offset a c b : seq (a + c) b = map (Nat.add a) (seq c b).
Proof.
  revert c; induction b as [|b IH]; intros c; [reflexivity|].
  cbn [seq map]. f_equal. replace (S (a + c)) with (a + S c)%nat by lia. apply IH.
Qed.

Lemma frames_app {X : Type} (g : list (list bool) -> list (list Z) -> X) s1 s2 l1 l2 :
  length s1 = length l1 ->
  map (fun frame => g (nth frame (s1 ++ s2) []) (nth frame (l1 ++ l2) []))
      (seq 0 (length s1 + length s2))
  = map (fun frame => g (nth frame s1 []) (nth frame l1 [])) (seq 0 (length s1))
    ++ map (fun frame => g (nth frame s2 []) (nth frame l2 [])) (seq 0 (length s2)).
Proof.
  intros Hl. rewrite seq_app, map_app. f_equal.
  - apply map_ext_in. intros t Ht. apply in_seq in Ht.
    rewrite !app_nth1 by lia. reflexivity.
  - rewrite Nat.add_0_l. replace (length s1) with (length s1 + 0)%nat at 1 by lia.
    rewrite seq_offset, map_map. apply map_ext. intros k.
    rewrite app_nth2_plus, Hl, app_nth2_plus. reflexivity.
Qed.

Lemma forallb_map_id {A : Type} (f : A -> bool) l : forallb f l = forallb (fun b => b) (map f l).
Proof. induction l as [|a l IH]; simpl; [reflexivity | rewrite IH; reflexivity]. Qed.

(** [compute_pvg] works frame by frame: on two stacks concatenated (with
    label stacks of the first part of equal length) it fails when one part
    fails, and otherwise returns the two PVGs one after the other. *)
Theorem compute_pvg_app s1 s2 l1 l2 steps :
  length s1 = length l1 ->
  compute_pvg (s1 ++ s2) (l1 ++ l2) steps
  = match compute_pvg s1 l1 steps, compute_pvg s2 l2 steps with
    | Some p1, Some p2 => Some (p1 ++ p2)
    | _, _ => None
    end.
Proof.
  intros Hl. unfold compute_pvg. cbv zeta.
  destruct (Z.ltb_spec steps 0); [reflexivity|].
  rewrite !length_app, Hl, Nat.leb_refl. cbn [negb].
  replace (Nat.leb (length l1 + length s2) (length l1 + length l2))
    with (Nat.leb (length s2) (length l2))
    by (destruct (Nat.leb_spec (length s2) (length l2)),
          (Nat.leb_spec (length l1 + length s2) (length l1 + length l2)); lia || reflexivity).
  rewrite <- Hl.
  rewrite !(forallb_map_id (fun frame => same_shape _ _)).
  rewrite (frames_app same_shape s1 s2 l1 l2 Hl), forallb_app.
  rewrite (frames_app (fun f lab => map (fun li => sum2 (and2 f li))
                         (map (fun j => eq_map lab j) (all_steps (Z.to_nat steps))))
             s1 s2 l1 l2 Hl).
  destruct (Nat.leb (length s2) (length l2)), (forallb _ (map _ (seq 0 (length s1)))),
    (forallb _ (map _ (seq 0 (length s2)))); reflexivity.
Qed.


(** [compute_pvg] reads only the first [len(s)] frames of the label
    stack: label stacks that agree on them (and have at least [len(s)]
    frames) give the same result. *)
Theorem compute_pvg_first_label_frames s labels labels' steps :
  (length s <= length labels)%nat -> (length s <= length labels')%nat ->
  (forall t, (t < length s)%nat -> nth t labels [] = nth t labels' []) ->
  compute_pvg s labels steps = compute_pvg s labels' steps.
Proof.
  intros H1 H2 Heq. unfold compute_pvg. cbv zeta.
  destruct (Nat.leb_spec (length s) (length labels)); [|lia].
  destruct (Nat.leb_spec (length s) (length labels')); [|lia].
  assert (E : forall X (g : list (list bool) -> list (list Z) -> X),
            map (fun frame => g (nth frame s []) (nth frame labels [])) (seq 0 (length s))
            = map (fun frame => g (nth frame s []) (nth frame labels' [])) (seq 0 (length s))).
  { intros X g. apply map_ext_in. intros t Ht. apply in_seq in Ht. rewrite Heq by lia.
    reflexivity. }
  rewrite !(forallb_map_id (fun frame => same_shape _ _)).
  rewrite (E _ same_shape).
  rewrite (E _ (fun f lab => map (fun li => sum2 (and2 f li))
                   (map (fun j => eq_map lab j) (all_steps (Z.to_nat steps))))).
  reflexivity.
Qed.




Lemma all_steps_In n w : In w (all_steps n) -> w <> 0%Z /\ (Z.abs w <= Z.of_nat n)%Z.
Proof.
  rewrite all_steps_split. intros Hw. apply in_app_or in Hw as [Hw | Hw].
  - rewrite <- in_rev in Hw. apply in_map_iff in Hw as (a & <- & Ha). apply in_seq in Ha. lia.
  - rewrite map_map in Hw. apply in_map_iff in Hw as (c & <- & Hc). apply in_seq in Hc. lia.
Qed.

Lemma all_steps_count_bin n w :
  count_occ Z.eq_dec (all_steps n) w
  = if negb (Z.eqb w 0) && Z.leb (Z.abs w) (Z.of_nat n) then 1%nat else 0%nat.
Proof.
  destruct (Z.eqb_spec w 0), (Z.leb_spec (Z.abs w) (Z.of_nat n)); cbn [negb andb].
  1, 2, 4: apply count_occ_not_In; intros Hin; apply all_steps_In in Hin; lia.
  apply all_steps_count; lia.
Qed.

Lemma sum_indicator {A : Type} (g : A -> bool) (P : list A) :
  fold_right Z.add 0%Z (map (fun p => if g p then 1%Z else 0%Z) P)
  = Z.of_nat (length (filter g P)).
Proof.
  induction P as [|p P IH]; [reflexivity|]. cbn [map fold_right filter].
  rewrite IH. destruct (g p); cbn [length]; lia.
Qed.

(** Row [t] of the PVG sums to the number of mask pixels of frame [t]
    whose label is nonzero with magnitude at most [steps]; mask pixels
    labelled [0] or beyond [steps] are counted in no bin. *)
Theorem compute_pvg_row_total s labels steps pvg t :
  compute_pvg s labels steps = Some pvg -> (t < length s)%nat ->
  fold_right Z.add 0%Z (nth t pvg [])
  = Z.of_nat (length (filter (fun p : bool * Z =>
                                fst p && negb (Z.eqb (snd p) 0) && Z.leb (Z.abs (snd p)) steps)
                             (combine (concat (nth t s [])) (concat (nth t labels []))))).
Proof.
  intros Hc Ht.
  apply compute_pvg_Some in Hc as (Hst & _ & Hshape & ->).
  rewrite (nth_map_seq _ (length s) t [] Ht). rewrite map_map.
  rewrite (map_ext_in _ (fun j => Z.of_nat (pixel_count (nth t s []) (nth t labels []) j))).
  2: { intros j _. apply sum2_count, Hshape, Ht. }
  unfold pixel_count. rewrite sum_bins_swap.
  rewrite <- sum_indicator. f_equal. apply map_ext. intros [b w]. cbn [fst snd].
  rewrite all_steps_count_bin, Z2Nat.id by exact Hst.
  destruct b; cbn [andb]; [|reflexivity].
  destruct (negb (Z.eqb w 0) && Z.leb (Z.abs w) steps)%bool; reflexivity.
Qed.

Lemma cos_atan_pos c : 0 < cos (atan c).
Proof. apply cos_gt_0; pose proof (atan_bound c); lra. Qed.

(** For [coef <> 0], the orthogonal lines are perpendicular to the AP
    axis ([coef * coef_orth = -1]) and orthogonal line [k] passes through
    the sample [(xs[k], ys[k])] of the AP axis. *)
Theorem find_orthogonal_points_perpendicular x_low x_high coef intercept steps xs ys co io :
  _find_orthogonal_points x_low x_high coef intercept steps = Some (xs, ys, co, io) ->
  coef <> 0 ->
  coef * co = -1 /\
  forall k, (k < length xs)%nat ->
    nth k ys 0 = coef * nth k xs 0 + intercept /\
    nth k ys 0 = co * nth k xs 0 + nth k io 0.
Proof.
  intros Hf Hc.
  destruct (find_orthogonal_points_shape _ _ _ _ _ _ _ _ _ Hf) as (_ & Hco & _ & _ & Hk).
  split.
  - rewrite Hco. pose proof (cos_atan_pos coef) as Hcos.
    pose proof (tan_atan coef) as Ht. unfold tan in Ht |- *.
    rewrite sin_minus, cos_minus, sin_PI2, cos_PI2.
    assert (Hs : sin (atan coef) = coef * cos (atan coef)).
    { rewrite <- Ht at 2. field. lra. }
    rewrite Hs. field. split; lra.
  - intros k Hk'. destruct (Hk k Hk') as [Hy Hi]. split; [exact Hy | rewrite Hi; ring].
Qed.

(** ** Witnesses *)


Lemma rolling_std_numba_constant_witness :
  _rolling_std_numba (repeat 5 4) 3 = repeat 0 4.
Proof. apply (rolling_std_numba_constant 5 4 3). lia. Defined.

Lemma sync_select_frames_witness :
  sync_select [0; 1; 2; 3; 4; 5] 5 [1; 2; 4]%Z 1 2 2
  = Some (slice_nat [0; 1; 2; 3; 4; 5] 2 4).
Proof.
  apply (sync_select_frames [0; 1; 2; 3; 4; 5] 5 [1; 2; 4]%Z 1 2 2).
  - simpl. lia.
  - lia.
  - lia.
  - intros p Hp. simpl in Hp. lia.
  - simpl. lia.
Defined.

Lemma sync_select_all_frames_witness :
  sync_select [0; 1; 2; 3] 3 [1; 2]%Z 1 2 0 = sync_select [0; 1; 2; 3] 3 [1; 2]%Z 1 2 2.
Proof. apply (sync_select_all_frames [0; 1; 2; 3] 3 [1; 2]%Z 1 2 0). left. reflexivity. Defined.

Lemma sync_select_frames_from_end_witness :
  sync_select [0; 1; 2; 3] 3 [1; 2]%Z 0 2 2 = sync_select [0; 1; 2; 3] 3 [1; 2]%Z 2 2 2 /\
  sync_select [0; 1; 2; 3] 3 [1; 2]%Z 1 0 2 = sync_select [0; 1; 2; 3] 3 [1; 2]%Z 1 2 2.
Proof.
  apply (sync_select_frames_from_end [0; 1; 2; 3] 3 [1; 2]%Z 1 2 2 0).
  vm_compute. split; discriminate.
Defined.

Lemma get_labels_map_shape_witness :
  exists lab, get_labels 0 2 1 0 (2%nat, 3%nat) 2 = Some lab /\
    length lab = 2%nat /\ forall i, (i < 2)%nat -> length (nth i lab []) = 3%nat.
Proof. apply (get_labels_map_shape 0 2 1 0 2 3 2). lia. Defined.

Lemma get_labels_sign_side_witness :
  exists lab, get_labels 0 2 1 0 (2%nat, 3%nat) 2 = Some lab /\
    forall i j, (i < 2)%nat -> (j < 3)%nat ->
      ((0 < nth j (nth i lab []) 0%Z)%Z <-> 1 * INR j + 0 <= INR i) /\
      ((nth j (nth i lab []) 0%Z < 0)%Z <-> INR i < 1 * INR j + 0).
Proof. apply (get_labels_sign_side 0 2 1 0 2 3 2). lia. Defined.

Lemma get_labels_two_sides_witness :
  get_labels 1 1 1 0 (2%nat, 2%nat) 3
  = Some (map (fun i => map (fun j => if Rle_dec 0 (INR i - (1 * INR j + 0))
                                      then 1%Z else (-1)%Z)
                            (seq 0 2))
              (seq 0 2)).
Proof. apply (get_labels_two_sides 1 1 1 0 2 2 3). right. split; [reflexivity | lia]. Defined.

Lemma compute_pvg_app_witness :
  compute_pvg ([[[true; false]]] ++ [[[true; true]]]) ([[[1; -1]]] ++ [[[2; 1]]])%Z 2
  = match compute_pvg [[[true; false]]] [[[1; -1]]]%Z 2,
          compute_pvg [[[true; true]]] [[[2; 1]]]%Z 2 with
    | Some p1, Some p2 => Some (p1 ++ p2)
    | _, _ => None
    end.
Proof. apply compute_pvg_app. reflexivity. Defined.

Lemma compute_pvg_first_label_frames_witness :
  compute_pvg [[[true; false]]] [[[1; -1]]; [[2; 2]]]%Z 2
  = compute_pvg [[[true; false]]] [[[1; -1]]]%Z 2.
Proof.
  apply compute_pvg_first_label_frames; simpl; try lia.
  intros t Ht. destruct t; [reflexivity | lia].
Defined.

Lemma compute_pvg_row_total_witness :
  fold_right Z.add 0%Z [0; 1; 0; 0]%Z
  = Z.of_nat (length (filter (fun p : bool * Z =>
                                fst p && negb (Z.eqb (snd p) 0) && Z.leb (Z.abs (snd p)) 2)
                             (combine [true; true; true] [1; 0; 5]%Z))).
Proof.
  change [0; 1; 0; 0]%Z with (nth 0 [[0; 1; 0; 0]%Z] []).
  change [true; true; true] with (concat (nth 0 [[[true; true; true]]] [])).
  change [1; 0; 5]%Z with (concat (nth 0 [[[1; 0; 5]]]%Z [])).
  apply (compute_pvg_row_total [[[true; true; true]]] [[[1; 0; 5]]]%Z 2 [[0; 1; 0; 0]%Z] 0).
  - reflexivity.
  - simpl. lia.
Defined.

Lemma find_orthogonal_points_perpendicular_witness :
  exists xs ys co io,
    _find_orthogonal_points 0 1 1 0 2 = Some (xs, ys, co, io) /\ 1 * co = -1.
Proof.
  do 4 eexists. split; [reflexivity|].
  refine (proj1 (find_orthogonal_points_perpendicular 0 1 1 0 2 _ _ _ _ _ _)).
  - reflexivity.
  - lra.
Defined.
